(** * Product catalogue controller: consistency of products, images and
      similar-product edges

    A shallow embedding of the product controller (the handlers
    [createProduct] ... [editSimilarProductsOfProduct]), of the product
    schema it saves through and of the constants both use.

    Conventions of the embedding.
    - The two Mongo collections are finite maps from [_id] to document;
      a [save] replaces the document under its [_id].
    - A transaction is the list of writes issued under the session; reads
      ([findById]) carry no session in the source and therefore see the
      committed collections only.  [commitTransaction] replays the writes
      in issue order and cannot fail; [abortTransaction] drops the
      pending writes and is a no-op once the session has committed.
    - [save] runs the schema validators first, as Mongoose does.  A save
      whose promise is not awaited cannot throw into the handler: when its
      validation fails it writes nothing and the handler goes on.  Its
      write is taken in program order, before whatever the handler does
      next.
    - Every handler is one [try]/[catch]: the body runs in a small
      state-and-exception monad and the [catch] turns the thrown error
      into [CustomError message status].
    - [populate('images')] is a read-side join; it leaves the list of
      image ids as stored.
    - Requests arrive as the validation layer types them: ids are
      [ObjectId]s, a body that should be an array of ids is absent,
      malformed or a list of ids.
    - Numbers: quantities are integers, prices rationals; string length
      is [String.length].
    - One request runs at a time.

    Three things the controller imports are not among the sources at
    hand and are modelled from the specification: [createProductImage],
    [doesArraysHaveSimilarElements] and the classification of errors
    into kinds.  The file store is a parameter ([FileStoreGateway]). *)

From Stdlib Require Import ZArith NArith QArith String List Lia.
From stdpp Require Import base option list gmap strings pretty.

Local Open Scope string_scope.
Local Open Scope list_scope.

(** ** Constants (product.constants.ts) *)

Definition MAX_IMAGES_PER_PRODUCT : nat := 3.
Definition MIN_IMAGES_PER_PRODUCT : nat := 1.
Definition MIN_QTY_IN_STOCK : Z := 0.
Definition MIN_PRODUCT_PRICE : Q := 1.
Definition PRODUCT_IMG_UPLOAD_PATH : string := "./dist/public".

(** ** Documents *)

Abbreviation ObjectId := N (only parsing).

(** The values the schema's [enum] lists for [category]. *)
Inductive Categories :=
| ANKLET | BODY_JEWELLERY | BRACELET | EARRING | NECKLACE | OTHERS | PHONE_STRAP.

Record Product := mkProduct {
  _id : ObjectId;
  name : string;
  description : string;
  quantityInStock : Z;
  category : Categories;
  isPopular : bool;
  price : Q;
  images : list ObjectId;
  similarProducts : list ObjectId
}.

Record ProductImage := mkProductImage {
  image_id : ObjectId;
  url : string
}.

(** An uploaded file as the multipart parser hands it over. *)
Record File := mkFile {
  originalname : string;
  buffer : string
}.

(** Field assignments of the handlers ([product.images = ...] and the
    like). *)
Definition set_images (p : Product) (l : list ObjectId) : Product :=
  mkProduct (_id p) (name p) (description p) (quantityInStock p) (category p)
            (isPopular p) (price p) l (similarProducts p).

Definition set_similarProducts (p : Product) (l : list ObjectId) : Product :=
  mkProduct (_id p) (name p) (description p) (quantityInStock p) (category p)
            (isPopular p) (price p) (images p) l.

Definition set_name (p : Product) (v : string) : Product :=
  mkProduct (_id p) v (description p) (quantityInStock p) (category p)
            (isPopular p) (price p) (images p) (similarProducts p).

Definition set_description (p : Product) (v : string) : Product :=
  mkProduct (_id p) (name p) v (quantityInStock p) (category p)
            (isPopular p) (price p) (images p) (similarProducts p).

Definition set_quantityInStock (p : Product) (v : Z) : Product :=
  mkProduct (_id p) (name p) (description p) v (category p)
            (isPopular p) (price p) (images p) (similarProducts p).

Definition set_category (p : Product) (v : Categories) : Product :=
  mkProduct (_id p) (name p) (description p) (quantityInStock p) v
            (isPopular p) (price p) (images p) (similarProducts p).

(** [array.push(x)] *)
Definition push {A} (l : list A) (x : A) : list A := l ++ [x].

(** ** The product schema (productSchema) *)

Inductive SchemaPath :=
| PathName | PathDescription | PathPrice | PathQuantityInStock | PathImages.

(** [name]: required, [minlength: 3], [maxlength: 200]. *)
Definition validName (v : string) : bool :=
  ((3 <=? String.length v) && (String.length v <=? 200))%nat.

(** [description]: length 0, or between 5 and 1000. *)
Definition validDescription (v : string) : bool :=
  ((String.length v =? 0) ||
   ((5 <=? String.length v) && (String.length v <=? 1000)))%nat.

(** [price]: [value >= MIN_PRODUCT_PRICE]. *)
Definition validPrice (v : Q) : bool := Qle_bool MIN_PRODUCT_PRICE v.

(** [quantityInStock]: [value >= MIN_QTY_IN_STOCK]. *)
Definition validQuantityInStock (v : Z) : bool := (MIN_QTY_IN_STOCK <=? v)%Z.

(** [images]: [length <= MAX_IMAGES_PER_PRODUCT && length >= MIN_IMAGES_PER_PRODUCT]. *)
Definition validImages (v : list ObjectId) : bool :=
  ((length v <=? MAX_IMAGES_PER_PRODUCT) && (MIN_IMAGES_PER_PRODUCT <=? length v))%nat.

(** The paths whose validator rejects the document.  [category] is typed
    by the enum the schema lists and [similarProducts] has no validator. *)
Definition validateSync (p : Product) : list SchemaPath :=
  (if validName (name p) then [] else [PathName]) ++
  (if validDescription (description p) then [] else [PathDescription]) ++
  (if validPrice (price p) then [] else [PathPrice]) ++
  (if validQuantityInStock (quantityInStock p) then [] else [PathQuantityInStock]) ++
  (if validImages (images p) then [] else [PathImages]).

Definition isValid (p : Product) : bool :=
  match validateSync p with [] => true | _ => false end.

(** ** Errors and responses *)

(** One constructor per [throw] of the controller, plus what [save] and
    the file store can raise. *)
Inductive Error :=
| ImageFilesNotPresent
| MaxImagesExceeded
| SimilarProductNotFound (productId : ObjectId)
| ProductNotFound (productId : ObjectId)
| ProductNotFoundDot (productId : ObjectId)
| ProductDoesntExist (productId : ObjectId)
| ArrayOfProductIdsNotPresent
| InvalidArrayOfProductIds
| ImageNotUploaded
| AlreadyMaxImages
| ImageNotFound (imageId : ObjectId)
| ImageDoesNotBelong (imageId productId : ObjectId)
| PayloadMustBeArrayOfStrings
| ImagesAreDifferent
| NewNameNotPresent
| NewQuantityNotPresent
| NewDescriptionNotPresent
| NewCategoryNotPresent
| ArrayOfNewSimilarNotPresent
| InvalidArrayOfNewSimilar
| CannotAddItself
| SchemaValidationFailed (paths : list SchemaPath)
| FileStoreFailure (reason : string).

Definition pathName (p : SchemaPath) : string :=
  match p with
  | PathName => "name"
  | PathDescription => "description"
  | PathPrice => "price"
  | PathQuantityInStock => "quantityInStock"
  | PathImages => "images"
  end.

(** [error.message], the text the [catch] hands to [CustomError]. *)
Definition message (e : Error) : string :=
  match e with
  | ImageFilesNotPresent => "Image files not present."
  | MaxImagesExceeded => "Maximum 3 images per product."
  | SimilarProductNotFound i =>
      "Product with id " ++ pretty i ++ " from similar product array not found"
  | ProductNotFound i => "Product with id " ++ pretty i ++ " not found"
  | ProductNotFoundDot i => "Product with id " ++ pretty i ++ " not found."
  | ProductDoesntExist i => "Product with id " ++ pretty i ++ " doesn't exist"
  | ArrayOfProductIdsNotPresent => "Array of product ids not present"
  | InvalidArrayOfProductIds => "Invalid array of product ids"
  | ImageNotUploaded => "Image not uploaded."
  | AlreadyMaxImages =>
      "Already " ++ pretty MAX_IMAGES_PER_PRODUCT ++
      " images for product present. Delete some image."
  | ImageNotFound i => "Image with id " ++ pretty i ++ " not found"
  | ImageDoesNotBelong i p =>
      "Image with id " ++ pretty i ++ " does not belong to product with id " ++ pretty p
  | PayloadMustBeArrayOfStrings => "Payload must be an array of strings"
  | ImagesAreDifferent => "Images are different"
  | NewNameNotPresent => "New product name not present"
  | NewQuantityNotPresent => "New product quantity not present"
  | NewDescriptionNotPresent => "New product description not present"
  | NewCategoryNotPresent => "New product category not present"
  | ArrayOfNewSimilarNotPresent => "Array of new similar products not present"
  | InvalidArrayOfNewSimilar => "Invalid array of new similar products"
  | CannotAddItself => "Cannot add product itself as a similar product"
  | SchemaValidationFailed ps =>
      "Product validation failed: " ++ String.concat ", " (map pathName ps)
  | FileStoreFailure r => r
  end.

Inductive ErrorKind :=
| ValidationError | NotFoundError | ConflictError | TransactionError | SideEffectError.

(** Modelled from the spec: the controller throws plain [Error]s and has
    no error classes; the kinds are the spec's classification (wrong
    image count, non-permutation reorder list, self-reference, missing or
    malformed input: validation; referenced entity absent: not found;
    image not belonging to the stated owner: conflict; file store:
    side effect). *)
Definition errorKind (e : Error) : ErrorKind :=
  match e with
  | SimilarProductNotFound _ | ProductNotFound _ | ProductNotFoundDot _
  | ProductDoesntExist _ | ImageNotFound _ => NotFoundError
  | ImageDoesNotBelong _ _ => ConflictError
  | FileStoreFailure _ => SideEffectError
  | _ => ValidationError
  end.

Inductive Payload :=
| OneProduct (p : Product)
| ManyProducts (ps : list Product).

(** What the handler passes to [next]. *)
Inductive Response :=
| CustomSuccess (data : Payload) (status : Z)
| CustomError (error : Error) (status : Z).

Definition isSuccess (r : Response) : bool :=
  match r with CustomSuccess _ _ => true | CustomError _ _ => false end.

(** ** Store, session and file store *)

Record Db := mkDb {
  products : gmap N Product;
  productImages : gmap N ProductImage
}.

Inductive Write :=
| SaveProduct (p : Product)
| SaveImage (i : ProductImage)
| DeleteImage (imageId : ObjectId).

Definition applyWrite (d : Db) (w : Write) : Db :=
  match w with
  | SaveProduct p => mkDb (<[_id p := p]> (products d)) (productImages d)
  | SaveImage i => mkDb (products d) (<[image_id i := i]> (productImages d))
  | DeleteImage k => mkDb (products d) (delete k (productImages d))
  end.

(** The world between two requests: the committed collections, the bytes
    in the file store (path to content) and the next [ObjectId] the
    driver generates. *)
Record World := mkWorld {
  db : Db;
  fileStore : gmap string string;
  nextObjectId : N
}.

(** The world while a handler runs: plus the writes pending under the
    session. *)
Record Ctx := mkCtx {
  world : World;
  session : list Write
}.

(** The file store gateway, an external collaborator: each call either
    throws (with a reason) or returns the new content of the store. *)
Class FileStoreGateway := {
  uploadProductImageFile : File -> gmap string string -> string + gmap string string;
  deleteProductImageFile : string -> gmap string string -> string + gmap string string
}.

(** ** The monad of a [try] body *)

Inductive Outcome (A : Type) :=
| Threw (e : Error)
| Returned (a : A).
Arguments Threw {A} e.
Arguments Returned {A} a.

Definition M (A : Type) : Type := Ctx -> Outcome A * Ctx.

Definition ret {A} (a : A) : M A := fun c => (Returned a, c).

Definition throw {A} (e : Error) : M A := fun c => (Threw e, c).

Definition bind {A B} (m : M A) (k : A -> M B) : M B :=
  fun c => match m c with
           | (Threw e, c') => (Threw e, c')
           | (Returned a, c') => k a c'
           end.

Notation "'let!' x ':=' m 'in' k" := (bind m (fun x => k))
  (at level 10, x name, m at level 100, k at level 200).
Notation "m ';;' k" := (bind m (fun _ => k))
  (at level 100, k at level 200, right associativity).

(** [for (let x of xs) { acc = body(acc, x) }], stopping at the first
    throw. *)
Fixpoint forOf {A S} (xs : list A) (body : S -> A -> M S) (acc : S) : M S :=
  match xs with
  | [] => ret acc
  | x :: xs' => let! acc' := body acc x in forOf xs' body acc'
  end.

(** ** Driver and Mongoose primitives *)

(** [new Types.ObjectId()]: the driver's next identifier. *)
Definition newObjectId : M ObjectId :=
  fun c =>
    let w := world c in
    (Returned (nextObjectId w),
     mkCtx (mkWorld (db w) (fileStore w) (N.succ (nextObjectId w))) (session c)).

(** [ProductModel.findById(id)], without a session: the committed
    collection. *)
Definition findById (productId : ObjectId) : M (option Product) :=
  fun c => (Returned (products (db (world c)) !! productId), c).

(** [ProductImageModel.findById(id)]. *)
Definition findImageById (imageId : ObjectId) : M (option ProductImage) :=
  fun c => (Returned (productImages (db (world c)) !! imageId), c).

Definition issue (w : Write) : M unit :=
  fun c => (Returned tt, mkCtx (world c) (push (session c) w)).

(** [await doc.save({ session })]: validate, then write under the
    session; a validation failure is thrown. *)
Definition save (p : Product) : M unit :=
  match validateSync p with
  | [] => issue (SaveProduct p)
  | paths => throw (SchemaValidationFailed paths)
  end.

(** [doc.save({ session })] with the promise dropped: the same write, but
    a validation failure rejects a promise nobody awaits. *)
Definition saveDetached (p : Product) : M unit :=
  if isValid p then issue (SaveProduct p) else ret tt.

(** [await doc.save()] outside any session: validate, then write to the
    collection at once. *)
Definition saveNow (p : Product) : M unit :=
  match validateSync p with
  | [] => fun c =>
      let w := world c in
      (Returned tt,
       mkCtx (mkWorld (applyWrite (db w) (SaveProduct p)) (fileStore w) (nextObjectId w))
             (session c))
  | paths => throw (SchemaValidationFailed paths)
  end.

(** [await image.deleteOne({ session })]. *)
Definition deleteOne (i : ProductImage) : M unit := issue (DeleteImage (image_id i)).

(** [session.commitTransaction()]: the pending writes reach the
    collections, in issue order. *)
Definition commitTransaction : M unit :=
  fun c =>
    let w := world c in
    (Returned tt,
     mkCtx (mkWorld (foldl applyWrite (db w) (session c)) (fileStore w) (nextObjectId w)) []).

(** [session.abortTransaction()]: the pending writes are dropped. *)
Definition abortTransaction (c : Ctx) : Ctx := mkCtx (world c) [].

(** [session.endSession()]. *)
Definition endSession (c : Ctx) : World := world c.

(** Modelled from the spec: createProductImage is not part of the
    sources at hand.  It persists an image record with a derived path
    within the given session and returns the new identity; it uploads no
    bytes. *)
Definition createProductImage (file : File) (owner : ObjectId) : M ObjectId :=
  let! imageId := newObjectId in
  issue (SaveImage (mkProductImage imageId
           (PRODUCT_IMG_UPLOAD_PATH ++ "/" ++ pretty owner ++ "-" ++ originalname file))) ;;
  ret imageId.

(** Modelled from the spec: doesArraysHaveSimilarElements is not part of
    the sources at hand.  Two lists are similar when they have the same
    cardinality and the same elements, in any order. *)
Definition doesArraysHaveSimilarElements (a b : list ObjectId) : bool :=
  (length a =? length b)%nat &&
  forallb (fun x => existsb (N.eqb x) b) a &&
  forallb (fun y => existsb (N.eqb y) a) b.

(** [array.indexOf(x)]; [None] stands for [-1]. *)
Fixpoint indexOf (l : list ObjectId) (x : ObjectId) : option nat :=
  match l with
  | [] => None
  | y :: l' => if N.eqb y x then Some 0%nat else S <$> indexOf l' x
  end.

(** [array.splice(i, 1)] *)
Definition splice1 (l : list ObjectId) (i : nat) : list ObjectId :=
  firstn i l ++ skipn (S i) l.

(** The two shapes of handler: a transactional one starts a session,
    and its [catch] aborts and ends it; a plain one has no session.
    Both answer [CustomSuccess data 200] or [CustomError message status]. *)
Definition transactional (status : Z) (body : M Payload) (w : World) : Response * World :=
  match body (mkCtx w []) with
  | (Returned data, c) => (CustomSuccess data 200, endSession c)
  | (Threw e, c) => (CustomError e status, endSession (abortTransaction c))
  end.

Definition plain (status : Z) (body : M Payload) (w : World) : Response * World :=
  match body (mkCtx w []) with
  | (Returned data, c) => (CustomSuccess data 200, world c)
  | (Threw e, c) => (CustomError e status, world c)
  end.

(** ** Requests *)

Record CreateProductDto := mkCreateProductDto {
  dto_name : string;
  dto_description : string;
  dto_quantityInStock : Z;
  dto_category : Categories;
  dto_isPopular : bool;
  dto_price : Q;
  dto_similarProducts : list ObjectId
}.

(** A request body that should be an array of id strings: absent, not
    such an array ([isValidArrayOfStrings] fails), or the ids. *)
Inductive IdsBody :=
| NoBody
| NotIds
| Ids (l : list ObjectId).

(** JavaScript truthiness of the scalar fields the edit handlers test. *)
Definition truthyString (v : option string) : bool :=
  match v with Some s => negb (String.length s =? 0)%nat | None => false end.

Definition truthyNumber (v : option Z) : bool :=
  match v with Some n => negb (n =? 0)%Z | None => false end.

(** ** The handlers *)

Section Controller.
Context `{gateway : FileStoreGateway}.

(** [await uploadProductImageFile(file)] *)
Definition upload (file : File) : M unit :=
  fun c =>
    let w := world c in
    match uploadProductImageFile file (fileStore w) with
    | inl reason => (Threw (FileStoreFailure reason), c)
    | inr fs => (Returned tt, mkCtx (mkWorld (db w) fs (nextObjectId w)) (session c))
    end.

(** [await deleteProductImageFile(path)] *)
Definition unlink (path : string) : M unit :=
  fun c =>
    let w := world c in
    match deleteProductImageFile path (fileStore w) with
    | inl reason => (Threw (FileStoreFailure reason), c)
    | inr fs => (Returned tt, mkCtx (mkWorld (db w) fs (nextObjectId w)) (session c))
    end.

(** Body of the first loop of [createProduct]: one image record per
    file, its id pushed on the product. *)
Definition attachImageStep (product : Product) (file : File) : M Product :=
  let! productImgId := createProductImage file (_id product) in
  ret (set_images product (push (images product) productImgId)).

(** Body of the second loop of [createProduct]: the listed product must
    exist; the edge is added at both ends. *)
Definition linkStep (product : Product) (productId : ObjectId) : M Product :=
  let! found := findById productId in
  match found with
  | None => throw (SimilarProductNotFound productId)
  | Some similarProduct =>
    let product := set_similarProducts product (push (similarProducts product) productId) in
    saveDetached (set_similarProducts similarProduct
                    (push (similarProducts similarProduct) (_id product))) ;;
    ret product
  end.

(** [new ProductModel({ ... })] *)
Definition newProductModel (productId : ObjectId) (productData : CreateProductDto) : Product :=
  mkProduct productId (dto_name productData) (dto_description productData)
            (dto_quantityInStock productData) (dto_category productData)
            (dto_isPopular productData) (dto_price productData) [] [].

(** The part of [createProduct] up to and including the commit. *)
Definition createProduct_commit (files : option (list File)) (productData : CreateProductDto)
  : M Product :=
  let! productId := newObjectId in
  let product := newProductModel productId productData in
  match files with
  | None => throw ImageFilesNotPresent
  | Some productImgFiles =>
    if (MAX_IMAGES_PER_PRODUCT <? length productImgFiles)%nat
    then throw MaxImagesExceeded
    else
      let! product := forOf productImgFiles attachImageStep product in
      let! product := forOf (dto_similarProducts productData) linkStep product in
      save product ;;
      commitTransaction ;;
      ret product
  end.

Definition createProduct (files : option (list File)) (productData : CreateProductDto)
  : World -> Response * World :=
  transactional 400 (
    let! product := createProduct_commit files productData in
    forOf (default [] files) (fun _ file => upload file) tt ;;
    ret (OneProduct product)).

Definition getProduct (productId : ObjectId) : World -> Response * World :=
  plain 500 (
    let! found := findById productId in
    match found with
    | None => throw (ProductNotFoundDot productId)
    | Some product => ret (OneProduct product)
    end).

Definition getProductsWithIds (body : IdsBody) : World -> Response * World :=
  plain 500 (
    match body with
    | NoBody => throw ArrayOfProductIdsNotPresent
    | NotIds => throw InvalidArrayOfProductIds
    | Ids productIds =>
      let! found :=
        forOf productIds (fun found productId =>
          let! product := findById productId in
          match product with
          | None => throw (ProductDoesntExist productId)
          | Some product => ret (push found product)
          end) [] in
      ret (ManyProducts found)
    end).

(** The part of [addNewImageOfProduct] up to and including the commit. *)
Definition addNewImageOfProduct_commit (productId : ObjectId) (file : option File)
  : M Product :=
  let! found := findById productId in
  match file with
  | None => throw ImageNotUploaded
  | Some productImgFile =>
    match found with
    | None => throw (ProductNotFound productId)
    | Some product =>
      if negb (length (images product) <? MAX_IMAGES_PER_PRODUCT)%nat
      then throw AlreadyMaxImages
      else
        let! productImgId := createProductImage productImgFile (_id product) in
        let product := set_images product (push (images product) productImgId) in
        save product ;;
        commitTransaction ;;
        ret product
    end
  end.

Definition addNewImageOfProduct (productId : ObjectId) (file : option File)
  : World -> Response * World :=
  transactional 400 (
    let! product := addNewImageOfProduct_commit productId file in
    match file with
    | Some productImgFile => upload productImgFile
    | None => ret tt
    end ;;
    ret (OneProduct product)).

Definition deleteImageOfProduct (productId imageId : ObjectId) : World -> Response * World :=
  transactional 400 (
    let! foundProduct := findById productId in
    let! foundImage := findImageById imageId in
    match foundProduct with
    | None => throw (ProductNotFound productId)
    | Some product =>
      match foundImage with
      | None => throw (ImageNotFound imageId)
      | Some image =>
        let imagePath := url image in
        match indexOf (images product) (image_id image) with
        | None => throw (ImageDoesNotBelong imageId productId)
        | Some indexOfImage =>
          let product := set_images product (splice1 (images product) indexOfImage) in
          deleteOne image ;;
          save product ;;
          commitTransaction ;;
          unlink imagePath ;;
          ret (OneProduct product)
        end
      end
    end).

Definition rearrangeImagesOfProduct (productId : ObjectId) (body : option (list ObjectId))
  : World -> Response * World :=
  plain 400 (
    let! found := findById productId in
    match found with
    | None => throw (ProductNotFound productId)
    | Some product =>
      match body with
      | None => throw PayloadMustBeArrayOfStrings
      | Some rearrangedImages =>
        if negb (doesArraysHaveSimilarElements rearrangedImages (images product))
        then throw ImagesAreDifferent
        else
          let product := set_images product rearrangedImages in
          saveNow product ;;
          ret (OneProduct product)
      end
    end).

Definition editNameOfProduct (productId : ObjectId) (newProductName : option string)
  : World -> Response * World :=
  plain 500 (
    if negb (truthyString newProductName) then throw NewNameNotPresent
    else
      let! found := findById productId in
      match found with
      | None => throw (ProductNotFoundDot productId)
      | Some product =>
        let product := set_name product (default "" newProductName) in
        saveNow product ;;
        ret (OneProduct product)
      end).

Definition editQuantityOfProduct (productId : ObjectId) (newProductQuantity : option Z)
  : World -> Response * World :=
  plain 500 (
    if negb (truthyNumber newProductQuantity) then throw NewQuantityNotPresent
    else
      let! found := findById productId in
      match found with
      | None => throw (ProductNotFoundDot productId)
      | Some product =>
        let product := set_quantityInStock product (default 0%Z newProductQuantity) in
        saveNow product ;;
        ret (OneProduct product)
      end).

Definition editDescriptionOfProduct (productId : ObjectId) (newProductDescription : option string)
  : World -> Response * World :=
  plain 500 (
    if negb (truthyString newProductDescription) then throw NewDescriptionNotPresent
    else
      let! found := findById productId in
      match found with
      | None => throw (ProductNotFoundDot productId)
      | Some product =>
        let product := set_description product (default "" newProductDescription) in
        saveNow product ;;
        ret (OneProduct product)
      end).

Definition editCategoryOfProduct (productId : ObjectId) (newProductCategory : option Categories)
  : World -> Response * World :=
  plain 500 (
    match newProductCategory with
    | None => throw NewCategoryNotPresent
    | Some newCategory =>
      let! found := findById productId in
      match found with
      | None => throw (ProductNotFoundDot productId)
      | Some product =>
        let product := set_category product newCategory in
        saveNow product ;;
        ret (OneProduct product)
      end
    end).

(** [list.some(x => x.equals(id))] *)
Definition some_equals (l : list ObjectId) (id : ObjectId) : bool :=
  existsb (fun x => N.eqb x id) l.

(** The two deltas of [editSimilarProductsOfProduct]. *)
Definition removeSimilarProductIds (product : Product) (newSimilarProductList : list ObjectId)
  : list ObjectId :=
  List.filter (fun oldProductId => negb (some_equals newSimilarProductList oldProductId))
              (similarProducts product).

Definition addSimilarProductIds (product : Product) (newSimilarProductList : list ObjectId)
  : list ObjectId :=
  List.filter (fun newProductId => negb (some_equals (similarProducts product) newProductId))
              newSimilarProductList.

(** Body of the first loop: drop the edge at both ends, unless the other
    end is gone. *)
Definition removeStep (product : Product) (productId : ObjectId) : M Product :=
  let! found := findById productId in
  match found with
  | Some oldSimilarProduct =>
    let product :=
      set_similarProducts product
        (List.filter (fun id => negb (N.eqb id productId)) (similarProducts product)) in
    saveDetached
      (set_similarProducts oldSimilarProduct
         (List.filter (fun id => negb (N.eqb id (_id product)))
                      (similarProducts oldSimilarProduct))) ;;
    ret product
  | None => ret product
  end.

(** Body of the second loop: add the edge at both ends. *)
Definition addStep (product : Product) (productId : ObjectId) : M Product :=
  if N.eqb (_id product) productId then throw CannotAddItself
  else
    let! found := findById productId in
    match found with
    | None => throw (SimilarProductNotFound productId)
    | Some newSimilarProduct =>
      let product := set_similarProducts product (push (similarProducts product) productId) in
      saveDetached
        (set_similarProducts newSimilarProduct
           (push (similarProducts newSimilarProduct) (_id product))) ;;
      ret product
    end.

Definition editSimilarProductsOfProduct (productId : ObjectId) (body : IdsBody)
  : World -> Response * World :=
  transactional 500 (
    match body with
    | NoBody => throw ArrayOfNewSimilarNotPresent
    | NotIds => throw InvalidArrayOfNewSimilar
    | Ids newSimilarProductList =>
      let! found := findById productId in
      match found with
      | None => throw (ProductNotFoundDot productId)
      | Some product0 =>
        let toRemove := removeSimilarProductIds product0 newSimilarProductList in
        let toAdd := addSimilarProductIds product0 newSimilarProductList in
        let! product := forOf toRemove removeStep product0 in
        let! product := forOf toAdd addStep product in
        save product ;;
        commitTransaction ;;
        ret (OneProduct product)
      end
    end).

(** ** The exposed operations, as one dispatch

    [getProducts], the paginated listing, has no [throw] of its own and
    is left out. *)
Inductive Request :=
| CreateProduct (files : option (list File)) (productData : CreateProductDto)
| GetProduct (productId : ObjectId)
| GetProductsWithIds (body : IdsBody)
| AddNewImageOfProduct (productId : ObjectId) (file : option File)
| DeleteImageOfProduct (productId imageId : ObjectId)
| RearrangeImagesOfProduct (productId : ObjectId) (body : option (list ObjectId))
| EditNameOfProduct (productId : ObjectId) (newName : option string)
| EditQuantityOfProduct (productId : ObjectId) (newQuantity : option Z)
| EditDescriptionOfProduct (productId : ObjectId) (newDescription : option string)
| EditCategoryOfProduct (productId : ObjectId) (newCategory : option Categories)
| EditSimilarProductsOfProduct (productId : ObjectId) (body : IdsBody).

Definition handle (r : Request) : World -> Response * World :=
  match r with
  | CreateProduct files productData => createProduct files productData
  | GetProduct productId => getProduct productId
  | GetProductsWithIds body => getProductsWithIds body
  | AddNewImageOfProduct productId file => addNewImageOfProduct productId file
  | DeleteImageOfProduct productId imageId => deleteImageOfProduct productId imageId
  | RearrangeImagesOfProduct productId body => rearrangeImagesOfProduct productId body
  | EditNameOfProduct productId v => editNameOfProduct productId v
  | EditQuantityOfProduct productId v => editQuantityOfProduct productId v
  | EditDescriptionOfProduct productId v => editDescriptionOfProduct productId v
  | EditCategoryOfProduct productId v => editCategoryOfProduct productId v
  | EditSimilarProductsOfProduct productId body => editSimilarProductsOfProduct productId body
  end.

(** The status each handler's [catch] reports. *)
Definition catchStatus (r : Request) : Z :=
  match r with
  | CreateProduct _ _ | AddNewImageOfProduct _ _ | DeleteImageOfProduct _ _
  | RearrangeImagesOfProduct _ _ => 400
  | _ => 500
  end.

End Controller.

(** ** The listing ([getProducts])

    The handler has no [throw] of its own and writes nothing: it answers
    [CustomSuccess pagination 200], and [getProducts] below is that
    pagination.  Page and size arrive as natural numbers.  Mongo's
    [$regex] matching with option [i] is a parameter; a collection scan
    returns the documents in some fixed order. *)

#[global] Instance Categories_eq_dec : EqDecision Categories.
Proof. solve_decision. Defined.

Record FilterCriteriaDto := mkFilterCriteriaDto {
  fc_page : nat;
  fc_size : nat;
  fc_category : option Categories;
  fc_isPopular : option bool;
  fc_search : option string
}.

(** One entry of [filterQueryList]. *)
Inductive FilterQuery :=
| ByCategory (wanted : Categories)
| ByIsPopular (wanted : bool)
| ByNameRegex (pattern : string).

(** [new Pagination(products, totalElements, totalPages, page, size)];
    [totalPages] is [None] when the division by a size of 0 leaves no
    finite number. *)
Record Pagination := mkPagination {
  content : list Product;
  totalElements : nat;
  totalPages : option nat;
  pageNumber : nat;
  pageSize : nat
}.

(** The three [if]s that fill [filterQueryList]. *)
Definition filterQueryList (criteria : FilterCriteriaDto) : list FilterQuery :=
  (match fc_category criteria with Some c => [ByCategory c] | None => [] end) ++
  (match fc_isPopular criteria with Some b => [ByIsPopular b] | None => [] end) ++
  (match fc_search criteria with
   | Some s => if (0 <? String.length s)%nat then [ByNameRegex s] else []
   | None => []
   end).

(** The documents of the collection, in scan order. *)
Definition collectionScan (d : Db) : list Product := (map_to_list (products d)).*2.

(** [cursor.skip(n)] *)
Definition skip (n : nat) (l : list Product) : list Product := skipn n l.

(** [cursor.limit(n)]; a limit of 0 is no limit. *)
Definition limit (n : nat) (l : list Product) : list Product :=
  if (n =? 0)%nat then l else firstn n l.

(** [Math.floor(totalElements / size)], plus one when
    [totalElements % size > 0]. *)
Definition countPages (totalElements size : nat) : option nat :=
  if (size =? 0)%nat then None
  else
    let totalPages := (totalElements / size)%nat in
    Some (if (0 <? totalElements mod size)%nat then totalPages + 1 else totalPages)%nat.

Section Listing.
Variable regexTest : string -> string -> bool.

Definition satisfies (q : FilterQuery) (p : Product) : bool :=
  match q with
  | ByCategory c => bool_decide (category p = c)
  | ByIsPopular b => Bool.eqb (isPopular p) b
  | ByNameRegex s => regexTest s (name p)
  end.

(** [ProductModel.find({ $and: queries })] *)
Definition findAnd (queries : list FilterQuery) (d : Db) : list Product :=
  List.filter (fun p => forallb (fun q => satisfies q p) queries) (collectionScan d).

(** [ProductModel.find()] *)
Definition findAll (d : Db) : list Product := collectionScan d.

Definition getProducts (criteria : FilterCriteriaDto) (w : World) : Pagination :=
  let page := fc_page criteria in
  let size := fc_size criteria in
  let queries := filterQueryList criteria in
  if (0 <? length queries)%nat
  then
    let totalElements := length (findAnd queries (db w)) in
    let totalPages := countPages totalElements size in
    let products := limit size (skip (page * size) (findAnd queries (db w))) in
    mkPagination products totalElements totalPages page size
  else
    let totalElements := length (findAll (db w)) in
    let totalPages := countPages totalElements size in
    let products := limit size (skip (page * size) (findAll (db w))) in
    mkPagination products totalElements totalPages page size.

End Listing.

(** * Definitions for the statements *)

(** ** Well-formed stores (the data model's invariants) *)

(** Every document sits under its own [_id]. *)
Definition keyed (d : Db) : Prop :=
  map_Forall (fun k p => _id p = k) (products d).

(** Every stored product passes the schema. *)
Definition allValid (d : Db) : Prop :=
  map_Forall (fun _ p => isValid p = true) (products d).

(** Product [b] exists and lists [a]. *)
Definition listsBack (d : Db) (a b : ObjectId) : Prop :=
  match products d !! b with
  | Some pb => a ∈ similarProducts pb
  | None => False
  end.

(** Every listed similar product exists and lists the product back. *)
Definition mutualEdges (d : Db) : Prop :=
  map_Forall (fun a pa => Forall (listsBack d a) (similarProducts pa)) (products d).

Definition wellFormed (d : Db) : Prop := keyed d ∧ allValid d ∧ mutualEdges d.

#[global] Instance listsBack_dec d a b : Decision (listsBack d a b) :=
  match products d !! b as o
    return Decision (match o with Some pb => a ∈ similarProducts pb | None => False end)
  with
  | Some pb => decide (a ∈ similarProducts pb)
  | None => right (fun H => H)
  end.

#[global] Instance wellFormed_dec d : Decision (wellFormed d) :=
  (_ : Decision
         (map_Forall (fun k p => _id p = k) (products d) ∧
          map_Forall (fun _ p => isValid p = true) (products d) ∧
          map_Forall (fun a pa => Forall (listsBack d a) (similarProducts pa))
                     (products d))).

(** ** The loops of [editSimilarProductsOfProduct], in closed form *)

Definition found (d : Db) (productId : ObjectId) : bool :=
  match products d !! productId with Some _ => true | None => false end.

(** An id stays in the edited list unless it is to be removed and its
    product is still there. *)
Definition survives (d : Db) (toRemove : list ObjectId) (id : ObjectId) : bool :=
  negb (existsb (fun productId => N.eqb id productId && found d productId) toRemove).

(** The write the removal loop leaves pending for one id. *)
Definition removeWrite (d : Db) (self productId : ObjectId) : list Write :=
  match products d !! productId with
  | Some old =>
    let old' := set_similarProducts old
                  (List.filter (fun id => negb (N.eqb id self)) (similarProducts old)) in
    if isValid old' then [SaveProduct old'] else []
  | None => []
  end.

(** An id can be added when it is not the product's own and its product
    exists. *)
Definition addable (d : Db) (self productId : ObjectId) : bool :=
  negb (N.eqb self productId) && found d productId.

(** The write the addition loop leaves pending for one id. *)
Definition addWrite (d : Db) (self productId : ObjectId) : list Write :=
  match products d !! productId with
  | Some new =>
    let new' := set_similarProducts new (push (similarProducts new) self) in
    if isValid new' then [SaveProduct new'] else []
  | None => []
  end.

(** What the loop throws at the first id that cannot be added. *)
Definition addError (self productId : ObjectId) : Error :=
  if N.eqb self productId then CannotAddItself else SimilarProductNotFound productId.

(** The writes the two loops leave pending. *)
Definition edgeWrites (d : Db) (product0 : Product) (newList : list ObjectId) : list Write :=
  flat_map (removeWrite d (_id product0)) (removeSimilarProductIds product0 newList) ++
  flat_map (addWrite d (_id product0)) (addSimilarProductIds product0 newList).

(** The product as the handler saves it. *)
Definition editedProduct (d : Db) (product0 : Product) (newList : list ObjectId) : Product :=
  set_similarProducts product0
    (List.filter (survives d (removeSimilarProductIds product0 newList))
                 (similarProducts product0) ++
     addSimilarProductIds product0 newList).

(** ** Kinds of pending writes *)

(** A write that, if it saves a product, saves a valid one. *)
Definition savesValid (wr : Write) : Prop :=
  match wr with SaveProduct p => isValid p = true | _ => True end.

Definition isProductWrite (wr : Write) : Prop :=
  match wr with SaveProduct _ => True | _ => False end.

(** ** Sample data for the concrete runs *)

(** A file store that takes every upload and every deletion. *)
Definition workingStore : FileStoreGateway :=
  {| uploadProductImageFile f fs := inr (<[originalname f := buffer f]> fs);
     deleteProductImageFile p fs := inr (delete p fs) |}.

(** A file store that refuses every call. *)
Definition brokenStore : FileStoreGateway :=
  {| uploadProductImageFile _ _ := inl "file store unavailable";
     deleteProductImageFile _ _ := inl "file store unavailable" |}.

Definition sampleProduct (i : ObjectId) (imgs sims : list ObjectId) : Product :=
  mkProduct i "ring" "" 1 OTHERS false 5 imgs sims.

Definition sampleDto (sims : list ObjectId) : CreateProductDto :=
  mkCreateProductDto "ring" "" 1 OTHERS false 5 sims.

(** Two unrelated products with one image each; ids from 100 on are
    unused. *)
Definition sampleWorld : World :=
  mkWorld
    (mkDb (<[1%N := sampleProduct 1 [10%N] []]> (<[2%N := sampleProduct 2 [11%N] []]> ∅))
          (<[10%N := mkProductImage 10 "./dist/public/1-a.png"]>
             (<[11%N := mkProductImage 11 "./dist/public/2-b.png"]> ∅)))
    ∅ 100.

(** Product 1 with two images. *)
Definition twoImagesWorld : World :=
  mkWorld
    (mkDb (<[1%N := sampleProduct 1 [10%N; 11%N] []]> ∅)
          (<[10%N := mkProductImage 10 "./dist/public/1-a.png"]>
             (<[11%N := mkProductImage 11 "./dist/public/1-b.png"]> ∅)))
    ∅ 100.

(** Product 1 lists product 7, which is gone. *)
Definition danglingWorld : World :=
  mkWorld (mkDb (<[1%N := sampleProduct 1 [10%N] [7%N]]> ∅)
                (<[10%N := mkProductImage 10 "./dist/public/1-a.png"]> ∅))
          ∅ 100.

(** Product 1 and product 3 list each other; product 2 stands alone. *)
Definition linkedWorld : World :=
  mkWorld
    (mkDb (<[1%N := sampleProduct 1 [10%N] [3%N]]>
             (<[2%N := sampleProduct 2 [11%N] []]>
                (<[3%N := sampleProduct 3 [12%N] [1%N]]> ∅)))
          (<[10%N := mkProductImage 10 "./dist/public/1-a.png"]>
             (<[11%N := mkProductImage 11 "./dist/public/2-b.png"]>
                (<[12%N := mkProductImage 12 "./dist/public/3-c.png"]> ∅))))
    ∅ 100.

(** ** Reading the listing's criteria *)

(** The same criteria, for another page. *)
Definition withPage (criteria : FilterCriteriaDto) (page : nat) : FilterCriteriaDto :=
  mkFilterCriteriaDto page (fc_size criteria) (fc_category criteria)
                      (fc_isPopular criteria) (fc_search criteria).

(** A product meets the criteria: the category and the popularity asked
    for, if any, and a name the search pattern matches, if there is a
    non-empty one. *)
Definition meets (regexTest : string -> string -> bool)
    (criteria : FilterCriteriaDto) (p : Product) : bool :=
  match fc_category criteria with Some c => bool_decide (category p = c) | None => true end &&
  match fc_isPopular criteria with Some b => Bool.eqb (isPopular p) b | None => true end &&
  match fc_search criteria with
  | Some s => if (0 <? String.length s)%nat then regexTest s (name p) else true
  | None => true
  end.

(** ** [createProduct], in closed form *)

(** The image records the first loop creates: one per file, in file
    order, under consecutive identifiers. *)
Fixpoint imageRecords (start : N) (owner : ObjectId) (files : list File) : list ProductImage :=
  match files with
  | [] => []
  | file :: files' =>
    mkProductImage start
      (PRODUCT_IMG_UPLOAD_PATH ++ "/" ++ pretty owner ++ "-" ++ originalname file)
    :: imageRecords (N.succ start) owner files'
  end.

(** The product as [createProduct] saves it. *)
Definition createdProduct (w : World) (files : list File) (productData : CreateProductDto)
  : Product :=
  set_similarProducts
    (set_images (newProductModel (nextObjectId w) productData)
       (map image_id (imageRecords (N.succ (nextObjectId w)) (nextObjectId w) files)))
    (dto_similarProducts productData).

(** The writes [createProduct] commits. *)
Definition createWrites (w : World) (files : list File) (productData : CreateProductDto)
  : list Write :=
  map SaveImage (imageRecords (N.succ (nextObjectId w)) (nextObjectId w) files) ++
  flat_map (addWrite (db w) (nextObjectId w)) (dto_similarProducts productData) ++
  [SaveProduct (createdProduct w files productData)].

(** The next identifier after [n] have been drawn. *)
Definition advance (next : N) (n : nat) : N := (next + N.of_nat n)%N.

(** ** More invariants and shapes of runs *)

(** Every stored product has an identifier below the next one the driver
    generates. *)
Definition freshIds (w : World) : Prop :=
  map_Forall (fun k _ => (k < nextObjectId w)%N) (products (db w)).

(** A sound world: a well-formed store, and identifiers yet to be
    generated are unused. *)
Definition sound (w : World) : Prop := wellFormed (db w) ∧ freshIds w.

#[global] Instance sound_dec w : Decision (sound w) :=
  (_ : Decision
         (wellFormed (db w) ∧
          map_Forall (fun k (_ : Product) => (k < nextObjectId w)%N) (products (db w)))).

(** The product collection after a run that at most rewrote one stored
    product, keeping its identifier and its similar products. *)
Definition retouched (d d' : Db) : Prop :=
  products d' = products d \/
  exists p p',
    products d !! _id p = Some p /\
    _id p' = _id p /\ similarProducts p' = similarProducts p /\
    isValid p' = true /\
    products d' = <[_id p := p']> (products d).

(** The four edits of one scalar field. *)
Definition isScalarEdit (r : Request) : bool :=
  match r with
  | EditNameOfProduct _ _ | EditQuantityOfProduct _ _
  | EditDescriptionOfProduct _ _ | EditCategoryOfProduct _ _ => true
  | _ => false
  end.

(** ** Proof steps *)

(** Runs a handler without a session through all its branches. *)
Ltac run_plain :=
  unfold plain, bind, findById, saveNow, ret, throw; simpl; intros;
  repeat case_match; simplify_eq; simpl in *; try done.

(** Closes a goal on the writes of a run once the run is known. *)
Ltac valid_writes :=
  repeat (apply Forall_cons_2;
          [first [ exact I
                 | cbn [savesValid]; unfold isValid;
                   match goal with H : validateSync _ = [] |- _ => by rewrite H end ]
          |]);
  apply Forall_nil_2.

Ltac give_writes :=
  first
    [ by exists []
    | match goal with
      | |- exists ws, mkDb (<[_ := ?p]> _) (<[_ := ?i]> _) = _ /\ _ =>
          exists [SaveImage i; SaveProduct p]
      | |- exists ws, mkDb (<[_ := ?p]> _) (delete ?k _) = _ /\ _ =>
          exists [DeleteImage k; SaveProduct p]
      | |- exists ws, mkDb (<[_ := ?p]> _) _ = _ /\ _ =>
          exists [SaveProduct p]
      end;
      split; [reflexivity|]; valid_writes ].

(** * Properties *)

(** ** The monad and the loops *)

Lemma set_similarProducts_same p : set_similarProducts p (similarProducts p) = p.
Proof. by destruct p. Qed.

Lemma set_similarProducts_twice p l1 l2 :
  set_similarProducts (set_similarProducts p l1) l2 = set_similarProducts p l2.
Proof. done. Qed.

Lemma isValid_set_similarProducts p l : isValid (set_similarProducts p l) = isValid p.
Proof. done. Qed.

Lemma validateSync_isValid p : validateSync p = [] <-> isValid p = true.
Proof. unfold isValid. destruct (validateSync p); split; congruence. Qed.

Lemma filter_filter {A} (f g : A -> bool) l :
  List.filter f (List.filter g l) = List.filter (fun x => g x && f x) l.
Proof.
  induction l as [|x l IH]; simpl; [done|].
  destruct (g x); simpl; [destruct (f x)|]; by rewrite IH.
Qed.

Lemma filter_all {A} (f : A -> bool) l :
  (forall x, In x l -> f x = true) -> List.filter f l = l.
Proof.
  induction l as [|x l IH]; simpl; intros H; [done|].
  rewrite (H x) by auto. f_equal. apply IH. auto.
Qed.

Lemma ctx_eta c : mkCtx (world c) (session c) = c.
Proof. by destruct c. Qed.

(** *** The removal loop, in closed form *)

Lemma forOf_removeStep toRemove : forall product c,
  forOf toRemove removeStep product c =
  (Returned (set_similarProducts product
               (List.filter (survives (db (world c)) toRemove) (similarProducts product))),
   mkCtx (world c)
         (session c ++ flat_map (removeWrite (db (world c)) (_id product)) toRemove)).
Proof.
  induction toRemove as [|productId toRemove IH]; intros product c; simpl.
  - unfold ret. rewrite filter_all by done.
    by rewrite set_similarProducts_same, app_nil_r, ctx_eta.
  - unfold bind at 1. unfold removeStep at 1, removeWrite at 1.
    unfold bind, findById, saveDetached, issue, ret, push.
    destruct (products (db (world c)) !! productId) as [old|] eqn:Hold; simpl.
    + assert (Hf : forall l,
        List.filter (survives (db (world c)) toRemove)
          (List.filter (fun id => negb (N.eqb id productId)) l) =
        List.filter (survives (db (world c)) (productId :: toRemove)) l).
      { intros l. rewrite filter_filter. apply filter_ext. intros x.
        unfold survives, found. simpl. by rewrite Hold, andb_true_r, negb_orb. }
      match goal with |- context [if ?b then _ else _] => destruct b eqn:Hv end;
        rewrite IH; simpl; rewrite Hf; unfold set_similarProducts; simpl;
        by rewrite <- ?app_assoc, ?app_nil_r.
    + rewrite IH. f_equal. f_equal. f_equal. apply filter_ext. intros x.
      unfold survives, found. simpl. by rewrite Hold, andb_false_r.
Qed.

(** *** The addition loop *)

Lemma addStep_addable product productId c :
  addable (db (world c)) (_id product) productId = true ->
  addStep product productId c =
  (Returned (set_similarProducts product (push (similarProducts product) productId)),
   mkCtx (world c) (session c ++ addWrite (db (world c)) (_id product) productId)).
Proof.
  unfold addable, found, addStep, addWrite. intros [Hne Hf]%andb_prop.
  apply negb_true_iff in Hne. rewrite Hne.
  unfold bind, findById, saveDetached, issue, ret, push.
  destruct (products (db (world c)) !! productId) as [new|]; [|discriminate]. simpl.
  match goal with |- context [if ?b then _ else _] => destruct b end; simpl;
    [done | by rewrite app_nil_r, ctx_eta].
Qed.

Lemma addStep_not_addable product productId c :
  addable (db (world c)) (_id product) productId = false ->
  addStep product productId c = (Threw (addError (_id product) productId), c).
Proof.
  unfold addable, found, addStep, addError.
  destruct (N.eqb (_id product) productId); simpl; [done|].
  unfold bind, findById.
  by destruct (products (db (world c)) !! productId).
Qed.

Lemma forOf_addStep_prefix pre : forall rest product c,
  forallb (addable (db (world c)) (_id product)) pre = true ->
  forOf (pre ++ rest) addStep product c =
  forOf rest addStep
    (set_similarProducts product (similarProducts product ++ pre))
    (mkCtx (world c) (session c ++ flat_map (addWrite (db (world c)) (_id product)) pre)).
Proof.
  induction pre as [|y pre IH]; intros rest product c; simpl.
  - intros _. by rewrite !app_nil_r, set_similarProducts_same, ctx_eta.
  - intros [Hy Hpre]%andb_prop. unfold bind at 1.
    rewrite (addStep_addable _ _ _ Hy). rewrite IH by done. simpl.
    unfold set_similarProducts, push. simpl. by rewrite <- !app_assoc.
Qed.

Lemma forOf_addStep_all toAdd product c :
  forallb (addable (db (world c)) (_id product)) toAdd = true ->
  forOf toAdd addStep product c =
  (Returned (set_similarProducts product (similarProducts product ++ toAdd)),
   mkCtx (world c) (session c ++ flat_map (addWrite (db (world c)) (_id product)) toAdd)).
Proof.
  intros H. rewrite <- (app_nil_r toAdd) at 1. by rewrite forOf_addStep_prefix.
Qed.

Lemma forOf_addStep_stops pre y post product c :
  forallb (addable (db (world c)) (_id product)) pre = true ->
  addable (db (world c)) (_id product) y = false ->
  exists pending,
    forOf (pre ++ y :: post) addStep product c =
    (Threw (addError (_id product) y), mkCtx (world c) pending).
Proof.
  intros Hpre Hy. rewrite forOf_addStep_prefix by done. simpl. unfold bind.
  rewrite addStep_not_addable by done. eauto.
Qed.

(** A list either passes a test everywhere or has a first element that
    fails it. *)
Lemma first_failure {A} (f : A -> bool) l :
  forallb f l = true \/
  exists pre y post, l = pre ++ y :: post /\ forallb f pre = true /\ f y = false.
Proof.
  induction l as [|x l IH]; simpl; [by left|].
  destruct (f x) eqn:Hx; simpl.
  - destruct IH as [IH|(pre & y & post & -> & Hpre & Hy)]; [by left|].
    right. exists (x :: pre), y, post. simpl. by rewrite Hx.
  - right. by exists [], x, l.
Qed.

Lemma forallb_has_failure {A} (f : A -> bool) l pre y post :
  l = pre ++ y :: post -> f y = false -> forallb f l = true -> False.
Proof.
  intros -> Hy Hall. rewrite forallb_app in Hall. simpl in Hall.
  rewrite Hy in Hall. by rewrite andb_false_r in Hall.
Qed.

(** The first failure of a list is unique. *)
Lemma first_failure_unique {A} (f : A -> bool) pre y post pre' y' post' :
  pre ++ y :: post = pre' ++ y' :: post' ->
  forallb f pre = true -> f y = false ->
  forallb f pre' = true -> f y' = false ->
  y = y'.
Proof.
  revert pre'. induction pre as [|x pre IH]; intros pre' Hs Hpre Hy Hpre' Hy'.
  - destruct pre' as [|x' pre']; simpl in Hs; inversion Hs; subst; [done|].
    simpl in Hpre'. by rewrite Hy in Hpre'.
  - destruct pre' as [|x' pre']; simpl in Hs; inversion Hs; subst.
    + simpl in Hpre. by rewrite Hy' in Hpre.
    + simpl in Hpre, Hpre'.
      apply andb_prop in Hpre as [_ Hpre]. apply andb_prop in Hpre' as [_ Hpre'].
      by apply (IH pre').
Qed.

(** *** The whole handler *)

Lemma editSimilar_success productId newList w product0 :
  products (db w) !! productId = Some product0 ->
  forallb (addable (db w) (_id product0)) (addSimilarProductIds product0 newList) = true ->
  isValid product0 = true ->
  editSimilarProductsOfProduct productId (Ids newList) w =
  (CustomSuccess (OneProduct (editedProduct (db w) product0 newList)) 200,
   mkWorld (foldl applyWrite (db w)
              (edgeWrites (db w) product0 newList ++
               [SaveProduct (editedProduct (db w) product0 newList)]))
           (fileStore w) (nextObjectId w)).
Proof.
  intros Hp Hadd Hv.
  unfold editSimilarProductsOfProduct, transactional. unfold bind at 1. unfold findById at 1.
  simpl. rewrite Hp. unfold bind at 1. rewrite forOf_removeStep. simpl.
  unfold bind at 1. rewrite forOf_addStep_all by done. simpl.
  rewrite set_similarProducts_twice.
  fold (editedProduct (db w) product0 newList).
  unfold bind, save.
  assert (Hv' : validateSync (editedProduct (db w) product0 newList) = []).
  { apply validateSync_isValid. by rewrite <- Hv. }
  rewrite Hv'. unfold issue, commitTransaction, ret, push, endSession, edgeWrites. simpl.
  by rewrite <- !app_assoc.
Qed.

Lemma editSimilar_invalid productId newList w product0 :
  products (db w) !! productId = Some product0 ->
  forallb (addable (db w) (_id product0)) (addSimilarProductIds product0 newList) = true ->
  isValid product0 = false ->
  editSimilarProductsOfProduct productId (Ids newList) w =
  (CustomError (SchemaValidationFailed (validateSync product0)) 500, w).
Proof.
  intros Hp Hadd Hv.
  unfold editSimilarProductsOfProduct, transactional. unfold bind at 1. unfold findById at 1.
  simpl. rewrite Hp. unfold bind at 1. rewrite forOf_removeStep. simpl.
  unfold bind at 1. rewrite forOf_addStep_all by done. simpl.
  unfold bind, save.
  change (validateSync (set_similarProducts _ _)) with (validateSync product0).
  unfold isValid in Hv. destruct (validateSync product0); [discriminate|]. done.
Qed.

Lemma editSimilar_stops productId newList w product0 pre y post :
  products (db w) !! productId = Some product0 ->
  addSimilarProductIds product0 newList = pre ++ y :: post ->
  forallb (addable (db w) (_id product0)) pre = true ->
  addable (db w) (_id product0) y = false ->
  editSimilarProductsOfProduct productId (Ids newList) w =
  (CustomError (addError (_id product0) y) 500, w).
Proof.
  intros Hp Hsplit Hpre Hy.
  unfold editSimilarProductsOfProduct, transactional. unfold bind at 1. unfold findById at 1.
  simpl. rewrite Hp. unfold bind at 1. rewrite forOf_removeStep. simpl.
  rewrite Hsplit. unfold bind at 1.
  edestruct (forOf_addStep_stops pre y post) as [pending ->];
    [exact Hpre|exact Hy|done].
Qed.

(** A successful edit went through both loops and the final save. *)
Lemma editSimilar_succeeded productId newList w product0 data st w' :
  products (db w) !! productId = Some product0 ->
  editSimilarProductsOfProduct productId (Ids newList) w = (CustomSuccess data st, w') ->
  forallb (addable (db w) (_id product0)) (addSimilarProductIds product0 newList) = true /\
  isValid product0 = true /\
  data = OneProduct (editedProduct (db w) product0 newList) /\
  w' = mkWorld (foldl applyWrite (db w)
                  (edgeWrites (db w) product0 newList ++
                   [SaveProduct (editedProduct (db w) product0 newList)]))
               (fileStore w) (nextObjectId w).
Proof.
  intros Hp Hrun.
  destruct (first_failure (addable (db w) (_id product0))
              (addSimilarProductIds product0 newList))
    as [Hall|(pre & y & post & Hsplit & Hpre & Hy)].
  - destruct (isValid product0) eqn:Hv.
    + rewrite (editSimilar_success _ _ _ _ Hp Hall Hv) in Hrun.
      by inversion Hrun.
    + rewrite (editSimilar_invalid _ _ _ _ Hp Hall Hv) in Hrun. discriminate.
  - rewrite (editSimilar_stops _ _ _ _ _ _ _ Hp Hsplit Hpre Hy) in Hrun. discriminate.
Qed.

Lemma survives_gone d toRemove id :
  products d !! id = None -> survives d toRemove id = true.
Proof.
  intros Hnone. unfold survives. apply negb_true_iff.
  destruct (existsb _ toRemove) eqn:He; [|done].
  apply existsb_exists in He as (x & _ & [Heq Hf]%andb_prop).
  apply N.eqb_eq in Heq. subst x. unfold found in Hf. by rewrite Hnone in Hf.
Qed.

Lemma commit_last d pending p :
  products (foldl applyWrite d (pending ++ [SaveProduct p])) !! _id p = Some p.
Proof. rewrite foldl_snoc. simpl. apply lookup_insert_eq. Qed.

(** ** C4 *)



(** ** C5 *)




(** ** C9 *)

(** C9. An id of the to-remove delta whose product is gone is skipped by
    the removal loop: after a successful edit it is still in the stored
    list of the edited product, which therefore differs from the list
    that was asked for. *)
Theorem editSimilar_keeps_dangling_id
    (productId : ObjectId) (newList : list ObjectId) (w w' : World)
    (product0 : Product) (dangling : ObjectId) (data : Payload) (st : Z) :
  products (db w) !! productId = Some product0 ->
  _id product0 = productId ->
  dangling ∈ removeSimilarProductIds product0 newList ->
  products (db w) !! dangling = None ->
  editSimilarProductsOfProduct productId (Ids newList) w = (CustomSuccess data st, w') ->
  exists product',
    products (db w') !! productId = Some product' /\
    data = OneProduct product' /\
    dangling ∈ similarProducts product' /\
    (dangling ∉ newList) /\
    similarProducts product' <> newList.
Proof.
  intros Hp Hid Hin Hnone Hrun.
  destruct (editSimilar_succeeded _ _ _ _ _ _ _ Hp Hrun) as (_ & _ & -> & ->).
  exists (editedProduct (db w) product0 newList).
  assert (Hstays : dangling ∈ similarProducts (editedProduct (db w) product0 newList)).
  { simpl. apply elem_of_app. left. apply list_elem_of_In, filter_In.
    apply list_elem_of_In, filter_In in Hin as [Hin _].
    split; [done|]. by apply survives_gone. }
  assert (Hnot : dangling ∉ newList).
  { apply list_elem_of_In, filter_In in Hin as [_ Hneg].
    apply negb_true_iff in Hneg. intros Hl%list_elem_of_In.
    assert (some_equals newList dangling = true) as Hs; [|congruence].
    apply existsb_exists. exists dangling. split; [done|]. apply N.eqb_refl. }
  repeat split; [|done|done|congruence].
  simpl. rewrite <- Hid.
  apply (commit_last _ _ (editedProduct (db w) product0 newList)).
Qed.

Lemma editSimilar_keeps_dangling_id_witness :
  exists product',
    products (db (editSimilarProductsOfProduct 1 (Ids []) danglingWorld).2) !! 1%N
      = Some product' /\
    OneProduct (sampleProduct 1 [10%N] [7%N]) = OneProduct product' /\
    7%N ∈ similarProducts product' /\
    (7%N ∉ ([] : list ObjectId)) /\
    similarProducts product' <> [].
Proof.
  apply (editSimilar_keeps_dangling_id 1 [] danglingWorld _
           (sampleProduct 1 [10%N] [7%N]) 7 _ 200).
  - reflexivity.
  - reflexivity.
  - vm_compute. apply list_elem_of_In. simpl. auto.
  - reflexivity.
  - reflexivity.
Defined.

(** ** Commits of keyed product writes *)

Lemma applyWrite_keyed d wr : keyed d -> keyed (applyWrite d wr).
Proof.
  unfold keyed. destruct wr as [p|i|k]; simpl; [|done..].
  intros Hk. by apply map_Forall_insert_2.
Qed.

Lemma commit_keyed pending : forall d, keyed d -> keyed (foldl applyWrite d pending).
Proof.
  induction pending as [|wr pending IH]; intros d Hk; simpl; [done|].
  by apply IH, applyWrite_keyed.
Qed.

Lemma commit_allValid pending : forall d,
  allValid d -> Forall savesValid pending -> allValid (foldl applyWrite d pending).
Proof.
  induction pending as [|wr pending IH]; intros d Hv Hall; simpl; [done|].
  inversion Hall as [|? ? Hwr Hrest]; subst. apply IH; [|done].
  unfold allValid in *. destruct wr as [p|i|k]; simpl in *; [|done..].
  by apply map_Forall_insert_2.
Qed.

(** Writes generated per id, each saving at most one product, under that
    id: after the commit an id that was visited holds what was saved for
    it, and every other id holds what it held. *)
Lemma commit_flat_map (f : ObjectId -> list Write) d ids k :
  (forall x, f x = [] \/ exists p, f x = [SaveProduct p] /\ _id p = x) ->
  products (foldl applyWrite d (flat_map f ids)) !! k =
  if decide (k ∈ ids)
  then match f k with
       | [SaveProduct p] => Some p
       | _ => products d !! k
       end
  else products d !! k.
Proof.
  intros Hf. induction ids as [|x ids IH] using rev_ind.
  - cbn [flat_map foldl]. case_decide as Hin; [|done]. by apply elem_of_nil in Hin.
  - rewrite flat_map_app, foldl_app. cbn [flat_map]. rewrite app_nil_r.
    destruct (Hf x) as [Hx|(p & Hx & Hid)]; rewrite Hx; cbn [foldl applyWrite products].
    + rewrite IH. clear IH. destruct (decide (k = x)) as [->|Hne].
      * rewrite Hx. by repeat case_decide.
      * repeat case_decide; try done; set_solver.
    + destruct (decide (k = x)) as [->|Hne].
      * rewrite <- Hid at 1. rewrite lookup_insert_eq.
        rewrite Hx. clear IH. case_decide; [done|set_solver].
      * rewrite lookup_insert_ne by congruence. rewrite IH. clear IH.
        repeat case_decide; try done; set_solver.
Qed.

Lemma removeWrite_shape d self : keyed d ->
  forall x, removeWrite d self x = [] \/
            exists p, removeWrite d self x = [SaveProduct p] /\ _id p = x.
Proof.
  intros Hk x. unfold removeWrite.
  destruct (products d !! x) as [old|] eqn:Hold; [|by left].
  match goal with |- context [if ?b then _ else _] => destruct b end; [|by left].
  right. eexists. split; [done|]. simpl. by apply (Hk x old).
Qed.

Lemma addWrite_shape d self : keyed d ->
  forall x, addWrite d self x = [] \/
            exists p, addWrite d self x = [SaveProduct p] /\ _id p = x.
Proof.
  intros Hk x. unfold addWrite.
  destruct (products d !! x) as [new|] eqn:Hnew; [|by left].
  match goal with |- context [if ?b then _ else _] => destruct b end; [|by left].
  right. eexists. split; [done|]. simpl. by apply (Hk x new).
Qed.

Lemma edgeWrites_savesValid d product0 newList :
  Forall savesValid (edgeWrites d product0 newList).
Proof.
  unfold edgeWrites. apply Forall_app. split; apply Forall_forall;
    intros wr (x & _ & Hwr)%list_elem_of_In%in_flat_map.
  - unfold removeWrite in Hwr. destruct (products d !! x); [|done].
    match type of Hwr with context [if ?b then _ else _] => destruct b eqn:Hv end;
      [|done]. destruct Hwr as [<-|[]]. exact Hv.
  - unfold addWrite in Hwr. destruct (products d !! x); [|done].
    match type of Hwr with context [if ?b then _ else _] => destruct b eqn:Hv end;
      [|done]. destruct Hwr as [<-|[]]. exact Hv.
Qed.

(** What a committed edit leaves under an id other than the edited one. *)
Lemma editSimilar_other d product0 newList k :
  keyed d -> k <> _id product0 ->
  products (foldl applyWrite d
              (edgeWrites d product0 newList ++
               [SaveProduct (editedProduct d product0 newList)])) !! k =
  if decide (k ∈ addSimilarProductIds product0 newList)
  then match addWrite d (_id product0) k with
       | [SaveProduct p] => Some p
       | _ => if decide (k ∈ removeSimilarProductIds product0 newList)
              then match removeWrite d (_id product0) k with
                   | [SaveProduct p] => Some p
                   | _ => products d !! k
                   end
              else products d !! k
       end
  else if decide (k ∈ removeSimilarProductIds product0 newList)
       then match removeWrite d (_id product0) k with
            | [SaveProduct p] => Some p
            | _ => products d !! k
            end
       else products d !! k.
Proof.
  intros Hk Hne. rewrite foldl_snoc. simpl. rewrite lookup_insert_ne by done.
  unfold edgeWrites. rewrite foldl_app.
  rewrite (commit_flat_map _ _ _ _ (addWrite_shape d (_id product0) Hk)).
  by rewrite (commit_flat_map _ _ _ _ (removeWrite_shape d (_id product0) Hk)).
Qed.

Lemma some_equals_spec l id : some_equals l id = true <-> id ∈ l.
Proof.
  unfold some_equals. rewrite existsb_exists, list_elem_of_In. split.
  - by intros (x & Hin & ->%N.eqb_eq).
  - intros Hin. exists id. split; [done|apply N.eqb_refl].
Qed.

Lemma some_equals_false l id : some_equals l id = false <-> id ∉ l.
Proof.
  rewrite <- some_equals_spec. by destruct (some_equals l id).
Qed.

Lemma elem_of_removeSimilarProductIds p newList id :
  id ∈ removeSimilarProductIds p newList <-> id ∈ similarProducts p /\ id ∉ newList.
Proof.
  unfold removeSimilarProductIds.
  rewrite list_elem_of_In, filter_In, negb_true_iff, some_equals_false.
  by rewrite <- list_elem_of_In.
Qed.

Lemma elem_of_addSimilarProductIds p newList id :
  id ∈ addSimilarProductIds p newList <-> id ∈ newList /\ id ∉ similarProducts p.
Proof.
  unfold addSimilarProductIds.
  rewrite list_elem_of_In, filter_In, negb_true_iff, some_equals_false.
  by rewrite <- list_elem_of_In.
Qed.

Lemma survives_not_removed d toRemove id : id ∉ toRemove -> survives d toRemove id = true.
Proof.
  intros Hnin. unfold survives. apply negb_true_iff.
  destruct (existsb _ toRemove) eqn:He; [|done].
  apply existsb_exists in He as (x & Hin & [Heq _]%andb_prop).
  apply N.eqb_eq in Heq. subst x. by apply list_elem_of_In in Hin.
Qed.

Lemma survives_removed d toRemove id :
  id ∈ toRemove -> is_Some (products d !! id) -> survives d toRemove id = false.
Proof.
  intros Hin [p Hp]. unfold survives. apply negb_false_iff, existsb_exists.
  exists id. split; [by apply list_elem_of_In|].
  unfold found. by rewrite Hp, N.eqb_refl.
Qed.

(** A failed edit leaves the world as it was. *)
Lemma editSimilar_failed_unchanged productId body w e st w' :
  editSimilarProductsOfProduct productId body w = (CustomError e st, w') -> w' = w.
Proof.
  intros Hrun. destruct body as [| |newList]; try (by inversion Hrun).
  destruct (products (db w) !! productId) as [product0|] eqn:Hp.
  - destruct (first_failure (addable (db w) (_id product0))
                (addSimilarProductIds product0 newList))
      as [Hall|(pre & y & post & Hsplit & Hpre & Hy)].
    + destruct (isValid product0) eqn:Hv0.
      * rewrite (editSimilar_success _ _ _ _ Hp Hall Hv0) in Hrun. discriminate.
      * rewrite (editSimilar_invalid _ _ _ _ Hp Hall Hv0) in Hrun. by inversion Hrun.
    + rewrite (editSimilar_stops _ _ _ _ _ _ _ Hp Hsplit Hpre Hy) in Hrun.
      by inversion Hrun.
  - unfold editSimilarProductsOfProduct, transactional, bind, findById in Hrun.
    simpl in Hrun. rewrite Hp in Hrun. by inversion Hrun.
Qed.

(** A committed edit keeps the store keyed and schema-valid. *)
Lemma editSimilar_keeps_keyed_valid productId body w r w' :
  keyed (db w) -> allValid (db w) ->
  editSimilarProductsOfProduct productId body w = (r, w') ->
  keyed (db w') /\ allValid (db w').
Proof.
  intros Hk Hv Hrun. destruct r as [data st|e st].
  - destruct body as [| |newList]; try discriminate.
    destruct (products (db w) !! productId) as [product0|] eqn:Hp.
    + destruct (editSimilar_succeeded _ _ _ _ _ _ _ Hp Hrun) as (_ & Hv0 & _ & ->).
      simpl. split; [by apply commit_keyed|].
      apply commit_allValid; [done|]. apply Forall_app. split.
      * apply edgeWrites_savesValid.
      * by repeat constructor.
    + unfold editSimilarProductsOfProduct, transactional, bind, findById in Hrun.
      simpl in Hrun. rewrite Hp in Hrun. discriminate.
  - by rewrite (editSimilar_failed_unchanged _ _ _ _ _ _ Hrun).
Qed.

(** ** The edit keeps the store well-formed *)

(** In a keyed, schema-valid store, the document an edit leaves under an
    id other than the edited one: the old one with the edited id pushed
    (id in the to-add delta) or filtered out (id in the to-remove
    delta), else the old one. *)
Lemma editSimilar_other_cases d product0 newList k pk' :
  keyed d -> allValid d -> k <> _id product0 ->
  products (foldl applyWrite d
              (edgeWrites d product0 newList ++
               [SaveProduct (editedProduct d product0 newList)])) !! k = Some pk' ->
  exists pk,
    products d !! k = Some pk /\
    ((k ∈ addSimilarProductIds product0 newList /\
      pk' = set_similarProducts pk (push (similarProducts pk) (_id product0))) \/
     ((k ∉ addSimilarProductIds product0 newList) /\
      k ∈ removeSimilarProductIds product0 newList /\
      pk' = set_similarProducts pk
              (List.filter (fun id => negb (N.eqb id (_id product0))) (similarProducts pk))) \/
     ((k ∉ addSimilarProductIds product0 newList) /\
      (k ∉ removeSimilarProductIds product0 newList) /\
      pk' = pk)).
Proof.
  intros Hk Hv Hne. rewrite editSimilar_other by done.
  unfold addWrite, removeWrite.
  destruct (products d !! k) as [pk|] eqn:Hpk; [|by repeat case_decide].
  rewrite !isValid_set_similarProducts, (Hv _ _ Hpk).
  intros H. exists pk. split; [done|].
  destruct (decide (k ∈ addSimilarProductIds product0 newList)) as [Ha|Ha].
  - inversion H; subst. left. by split.
  - destruct (decide (k ∈ removeSimilarProductIds product0 newList)) as [Hr|Hr];
      inversion H; subst.
    + right. left. by repeat split.
    + right. right. by repeat split.
Qed.

(** Under an id other than the edited one a document stays, and keeps
    every listed id other than the edited one. *)
Lemma editSimilar_other_keeps d product0 newList k pk :
  keyed d -> k <> _id product0 -> products d !! k = Some pk ->
  exists pk',
    products (foldl applyWrite d
                (edgeWrites d product0 newList ++
                 [SaveProduct (editedProduct d product0 newList)])) !! k = Some pk' /\
    forall x, x <> _id product0 -> x ∈ similarProducts pk -> x ∈ similarProducts pk'.
Proof.
  intros Hk Hne Hpk. rewrite editSimilar_other by done.
  unfold addWrite, removeWrite. rewrite Hpk.
  assert (Hpush : forall x, x <> _id product0 -> x ∈ similarProducts pk ->
            x ∈ similarProducts (set_similarProducts pk
                                   (push (similarProducts pk) (_id product0)))).
  { intros x _ Hx. simpl. unfold push. set_solver. }
  assert (Hfilter : forall x, x <> _id product0 -> x ∈ similarProducts pk ->
            x ∈ similarProducts (set_similarProducts pk
                 (List.filter (fun id => negb (N.eqb id (_id product0)))
                              (similarProducts pk)))).
  { intros x Hx Hin. simpl. apply list_elem_of_In, filter_In.
    split; [by apply list_elem_of_In|]. by apply negb_true_iff, N.eqb_neq. }
  repeat case_decide;
    repeat match goal with |- context [if ?b then _ else _] => destruct b end;
    eexists; (split; [done|]); auto.
Qed.

Lemma editSimilar_keeps_mutualEdges productId newList w data st w' :
  wellFormed (db w) ->
  editSimilarProductsOfProduct productId (Ids newList) w = (CustomSuccess data st, w') ->
  mutualEdges (db w').
Proof.
  intros (Hk & Hv & Hm) Hrun.
  destruct (products (db w) !! productId) as [pa|] eqn:Hpa.
  2: { unfold editSimilarProductsOfProduct, transactional, bind, findById in Hrun.
       simpl in Hrun. rewrite Hpa in Hrun. discriminate. }
  pose proof (Hk _ _ Hpa) as Hida.
  destruct (editSimilar_succeeded _ _ _ _ _ _ _ Hpa Hrun) as (Hadd & _ & _ & ->).
  cbn [db]. set (d := db w) in *.
  set (d' := foldl applyWrite d
               (edgeWrites d pa newList ++ [SaveProduct (editedProduct d pa newList)])).
  assert (Ha' : products d' !! _id pa = Some (editedProduct d pa newList)).
  { apply (commit_last _ _ (editedProduct d pa newList)). }
  assert (Hback : forall k pk b, products d !! k = Some pk -> b ∈ similarProducts pk ->
            exists pb, products d !! b = Some pb /\ k ∈ similarProducts pb).
  { intros k pk b Hpk Hb. pose proof (Hm _ _ Hpk) as Hedges.
    rewrite Forall_forall in Hedges. specialize (Hedges _ Hb).
    unfold listsBack in Hedges. fold d in Hedges.
    destruct (products d !! b) as [pb|]; [by exists pb|done]. }
  (* the ids the edited product lists after the edit *)
  assert (Hedited : forall x, x ∈ similarProducts (editedProduct d pa newList) <->
            (x ∈ similarProducts pa /\ x ∈ newList) \/
            x ∈ addSimilarProductIds pa newList).
  { intros x. simpl. rewrite elem_of_app, list_elem_of_In, filter_In, <- list_elem_of_In.
    split; (intros [[Hx Hs]|Hx]; [left|by right]); split; try done.
    - destruct (decide (x ∈ newList)) as [|Hn]; [done|].
      destruct (Hback _ _ _ Hpa Hx) as (px & Hpx & _).
      rewrite survives_removed in Hs; [done| |by rewrite Hpx].
      by apply elem_of_removeSimilarProductIds.
    - apply survives_not_removed. rewrite elem_of_removeSimilarProductIds. tauto. }
  intros k pk' Hpk'. apply Forall_forall. intros b Hb. unfold listsBack.
  destruct (decide (k = _id pa)) as [->|Hka].
  - (* the edited product *)
    rewrite Ha' in Hpk'. inversion Hpk'; subst pk'. clear Hpk'.
    destruct (decide (b = _id pa)) as [->|Hba]; [by rewrite Ha'|].
    apply Hedited in Hb as [[Hold Hnew]|Hnew].
    + destruct (Hback _ _ _ Hpa Hold) as (pb & Hpb & Hin). rewrite <- Hida in Hin.
      subst d'. rewrite editSimilar_other by done.
      rewrite decide_False
        by (rewrite elem_of_addSimilarProductIds; tauto).
      rewrite decide_False
        by (rewrite elem_of_removeSimilarProductIds; tauto).
      fold d. by rewrite Hpb.
    + subst d'. rewrite editSimilar_other by done. rewrite decide_True by done.
      apply list_elem_of_In in Hnew as Hin.
      pose proof (proj1 (forallb_forall _ _) Hadd _ Hin) as [_ Hf]%andb_prop.
      unfold found in Hf. unfold addWrite. fold d.
      destruct (products d !! b) as [pb|] eqn:Hpb; [|done].
      rewrite isValid_set_similarProducts, (Hv _ _ Hpb). simpl. unfold push. set_solver.
  - (* any other product *)
    destruct (editSimilar_other_cases _ _ _ _ _ Hk Hv Hka Hpk') as (pk & Hpk & Hcases).
    assert (Hold : b <> _id pa -> b ∈ similarProducts pk ->
              match products d' !! b with
              | Some pb => k ∈ similarProducts pb
              | None => False
              end).
    { intros Hba Hin. destruct (Hback _ _ _ Hpk Hin) as (pb & Hpb & Hkin).
      destruct (editSimilar_other_keeps d pa newList b pb Hk Hba Hpb)
        as (pb' & Hpb' & Hkeep).
      unfold d'. rewrite Hpb'. by apply Hkeep. }
    destruct Hcases as [[Ha ->]|[(Hna & Hr & ->)|(Hna & Hnr & ->)]].
    + destruct (decide (b = _id pa)) as [->|Hba].
      * rewrite Ha'. apply Hedited. by right.
      * apply Hold; [done|]. simpl in Hb. unfold push in Hb. set_solver.
    + simpl in Hb. apply list_elem_of_In, filter_In in Hb as [Hb Hne].
      apply negb_true_iff, N.eqb_neq in Hne. apply Hold; [done|].
      by apply list_elem_of_In.
    + destruct (decide (b = _id pa)) as [->|Hba]; [|by apply Hold].
      rewrite Ha'. apply Hedited. left.
      destruct (Hback _ _ _ Hpk Hb) as (pa0 & Hpa0 & Hkin).
      rewrite Hida, Hpa in Hpa0. inversion Hpa0; subst pa0.
      split; [done|].
      destruct (decide (k ∈ newList)) as [|Hn]; [done|].
      exfalso. apply Hnr, elem_of_removeSimilarProductIds. by split.
Qed.

(** Every run of the edit, failed or not, takes a well-formed store to
    a well-formed store. *)
Lemma editSimilar_keeps_wellFormed productId body w r w' :
  wellFormed (db w) ->
  editSimilarProductsOfProduct productId body w = (r, w') ->
  wellFormed (db w').
Proof.
  intros Hwf Hrun. pose proof Hwf as (Hk & Hv & Hm).
  destruct (editSimilar_keeps_keyed_valid _ _ _ _ _ Hk Hv Hrun) as [Hk' Hv'].
  split; [done|]. split; [done|].
  destruct r as [data st|e st].
  - destruct body as [| |newList]; try discriminate.
    by eapply editSimilar_keeps_mutualEdges.
  - by rewrite (editSimilar_failed_unchanged _ _ _ _ _ _ Hrun).
Qed.

(** ** C1 *)

(** After a successful edit of [a]'s list to [[b]], each of the two
    lists the other. *)
Lemma editSimilar_links a b w pa pb data st w1 :
  wellFormed (db w) -> a <> b ->
  products (db w) !! a = Some pa -> products (db w) !! b = Some pb ->
  editSimilarProductsOfProduct a (Ids [b]) w = (CustomSuccess data st, w1) ->
  exists pa1 pb1,
    products (db w1) !! a = Some pa1 /\ products (db w1) !! b = Some pb1 /\
    b ∈ similarProducts pa1 /\ a ∈ similarProducts pb1.
Proof.
  intros (Hk & Hv & Hm) Hab Hpa Hpb Hrun.
  pose proof (Hk _ _ Hpa) as Hida. pose proof (Hk _ _ Hpb) as Hidb.
  destruct (editSimilar_succeeded _ _ _ _ _ _ _ Hpa Hrun) as (_ & _ & _ & ->).
  assert (Hnotrem : b ∉ removeSimilarProductIds pa [b]).
  { rewrite elem_of_removeSimilarProductIds. intros [_ Hn]. apply Hn. set_solver. }
  exists (editedProduct (db w) pa [b]). cbn [db].
  assert (products (foldl applyWrite (db w)
            (edgeWrites (db w) pa [b] ++ [SaveProduct (editedProduct (db w) pa [b])])) !! a
          = Some (editedProduct (db w) pa [b])) as ->.
  { rewrite <- Hida. apply (commit_last _ _ (editedProduct (db w) pa [b])). }
  rewrite editSimilar_other by (done || congruence).
  destruct (decide (b ∈ addSimilarProductIds pa [b])) as [Hadd|Hnadd].
  - unfold addWrite. rewrite Hpb, isValid_set_similarProducts, (Hv _ _ Hpb).
    eexists. split; [done|]. split; [done|]. simpl. split.
    + apply elem_of_app. by right.
    + unfold push. rewrite Hida. set_solver.
  - rewrite decide_False by done. exists pb. split; [done|]. split; [done|].
    assert (Hin : b ∈ similarProducts pa).
    { destruct (decide (b ∈ similarProducts pa)) as [|Hn]; [done|].
      exfalso. apply Hnadd, elem_of_addSimilarProductIds. set_solver. }
    split.
    + apply elem_of_app. left. apply list_elem_of_In, filter_In.
      split; [by apply list_elem_of_In|]. by apply survives_not_removed.
    + pose proof (Hm _ _ Hpa) as Hedges. simpl in Hedges.
      rewrite Forall_forall in Hedges. specialize (Hedges _ Hin).
      unfold listsBack in Hedges. by rewrite Hpb in Hedges.
Qed.

(** After a successful edit of [a]'s list to [[]], a product [b] that
    [a] listed is listed no more, and does not list [a]. *)
Lemma editSimilar_unlinks a b w pa pb data st w2 :
  keyed (db w) -> allValid (db w) -> a <> b ->
  products (db w) !! a = Some pa -> products (db w) !! b = Some pb ->
  editSimilarProductsOfProduct a (Ids []) w = (CustomSuccess data st, w2) ->
  exists pa2 pb2,
    products (db w2) !! a = Some pa2 /\ products (db w2) !! b = Some pb2 /\
    (b ∉ similarProducts pa2) /\
    (b ∈ similarProducts pa -> a ∉ similarProducts pb2).
Proof.
  intros Hk Hv Hab Hpa Hpb Hrun.
  pose proof (Hk _ _ Hpa) as Hida. pose proof (Hk _ _ Hpb) as Hidb.
  destruct (editSimilar_succeeded _ _ _ _ _ _ _ Hpa Hrun) as (_ & _ & _ & ->).
  exists (editedProduct (db w) pa []). cbn [db].
  assert (products (foldl applyWrite (db w)
            (edgeWrites (db w) pa [] ++ [SaveProduct (editedProduct (db w) pa [])])) !! a
          = Some (editedProduct (db w) pa [])) as ->.
  { rewrite <- Hida. apply (commit_last _ _ (editedProduct (db w) pa [])). }
  rewrite editSimilar_other by (done || congruence).
  rewrite decide_False by (rewrite elem_of_addSimilarProductIds; set_solver).
  assert (Hgone : b ∉ similarProducts (editedProduct (db w) pa [])).
  { simpl. rewrite app_nil_r. intros [Hin Hs]%list_elem_of_In%filter_In.
    rewrite survives_removed in Hs; [done| |by rewrite Hpb].
    apply elem_of_removeSimilarProductIds. split; [by apply list_elem_of_In|].
    apply not_elem_of_nil. }
  destruct (decide (b ∈ removeSimilarProductIds pa [])) as [Hrem|Hnrem].
  - unfold removeWrite. rewrite Hpb, isValid_set_similarProducts, (Hv _ _ Hpb).
    eexists. split; [done|]. split; [done|]. split; [done|].
    intros _. simpl. intros [_ Hf]%list_elem_of_In%filter_In.
    rewrite Hida, N.eqb_refl in Hf. discriminate.
  - exists pb. split; [done|]. split; [done|]. split; [done|].
    intros Hin. exfalso. apply Hnrem, elem_of_removeSimilarProductIds.
    split; [done|apply not_elem_of_nil].
Qed.


Lemma linkedWorld_wellFormed : wellFormed (db linkedWorld).
Proof. apply (bool_decide_unpack _). by vm_compute. Qed.


(** ** C10 *)



(** ** C8 *)

Lemma transactional_status st body w e st' w' :
  transactional st body w = (CustomError e st', w') -> st' = st.
Proof.
  unfold transactional. destruct (body _) as [[?|?] ?]; intros H; by inversion H.
Qed.

Lemma plain_status st body w e st' w' :
  plain st body w = (CustomError e st', w') -> st' = st.
Proof.
  unfold plain. destruct (body _) as [[?|?] ?]; intros H; by inversion H.
Qed.




(** ** The loops of [createProduct] *)

Lemma linkStep_found product productId c :
  found (db (world c)) productId = true ->
  linkStep product productId c =
  (Returned (set_similarProducts product (push (similarProducts product) productId)),
   mkCtx (world c) (session c ++ addWrite (db (world c)) (_id product) productId)).
Proof.
  unfold found, linkStep, addWrite, bind, findById, saveDetached, issue, ret, push.
  destruct (products (db (world c)) !! productId) as [sp|]; [|discriminate]. intros _. simpl.
  match goal with |- context [if ?b then _ else _] => destruct b end; simpl;
    [done | by rewrite app_nil_r, ctx_eta].
Qed.

Lemma linkStep_missing product productId c :
  found (db (world c)) productId = false ->
  linkStep product productId c = (Threw (SimilarProductNotFound productId), c).
Proof.
  unfold found, linkStep, bind, findById.
  by destruct (products (db (world c)) !! productId).
Qed.

Lemma forOf_linkStep_prefix pre : forall rest product c,
  forallb (found (db (world c))) pre = true ->
  forOf (pre ++ rest) linkStep product c =
  forOf rest linkStep
    (set_similarProducts product (similarProducts product ++ pre))
    (mkCtx (world c) (session c ++ flat_map (addWrite (db (world c)) (_id product)) pre)).
Proof.
  induction pre as [|y pre IH]; intros rest product c; simpl.
  - intros _. by rewrite !app_nil_r, set_similarProducts_same, ctx_eta.
  - intros [Hy Hpre]%andb_prop. unfold bind at 1.
    rewrite (linkStep_found _ _ _ Hy). rewrite IH by done. simpl.
    unfold set_similarProducts, push. simpl. by rewrite <- !app_assoc.
Qed.

Lemma forOf_linkStep_all ids product c :
  forallb (found (db (world c))) ids = true ->
  forOf ids linkStep product c =
  (Returned (set_similarProducts product (similarProducts product ++ ids)),
   mkCtx (world c) (session c ++ flat_map (addWrite (db (world c)) (_id product)) ids)).
Proof.
  intros H. rewrite <- (app_nil_r ids) at 1. by rewrite forOf_linkStep_prefix.
Qed.

Lemma forOf_linkStep_stops pre y post product c :
  forallb (found (db (world c))) pre = true ->
  found (db (world c)) y = false ->
  exists pending,
    forOf (pre ++ y :: post) linkStep product c =
    (Threw (SimilarProductNotFound y), mkCtx (world c) pending).
Proof.
  intros Hpre Hy. rewrite forOf_linkStep_prefix by done. simpl. unfold bind.
  rewrite linkStep_missing by done. eauto.
Qed.

Lemma validateSync_no_images p : images p = [] -> PathImages ∈ validateSync p.
Proof.
  intros Hi. unfold validateSync. rewrite Hi. simpl. set_solver.
Qed.

(** ** C3 *)

(** C3, as stated, fails: a create request with no image file that lists
    a similar product which does not exist is rejected for the missing
    product, a not-found error, before the schema ever sees the empty
    image list. *)
Lemma create_without_images_not_found_counterexample :
  @createProduct workingStore (Some []) (sampleDto [7%N]) sampleWorld =
    (CustomError (SimilarProductNotFound 7) 400,
     mkWorld (db sampleWorld) (fileStore sampleWorld) 101) /\
  errorKind (SimilarProductNotFound 7) <> ValidationError.
Proof. split; [reflexivity|discriminate]. Qed.

(** C3 (amended). A create request with no image file or with more than
    three always fails with status 400, and neither collection nor the
    file store changes.  With more than three files the error is the
    count one.  With none, the similar products are looked up first: if
    all exist, the save is rejected by the schema's rule on [images]; if
    not, the error is the not-found one for the first that is missing.
    The error is a validation error in all cases but the last. *)
Theorem createProduct_rejects_wrong_image_count `{gateway : FileStoreGateway}
    (files : list File) (productData : CreateProductDto) (w : World) :
  length files = 0%nat \/ (MAX_IMAGES_PER_PRODUCT < length files)%nat ->
  exists e,
    createProduct (Some files) productData w =
      (CustomError e 400, mkWorld (db w) (fileStore w) (N.succ (nextObjectId w))) /\
    ((MAX_IMAGES_PER_PRODUCT < length files)%nat -> e = MaxImagesExceeded) /\
    (length files = 0%nat ->
       (forallb (found (db w)) (dto_similarProducts productData) = true ->
          exists paths, e = SchemaValidationFailed paths /\ PathImages ∈ paths) /\
       (forall pre y post,
          dto_similarProducts productData = pre ++ y :: post ->
          forallb (found (db w)) pre = true -> found (db w) y = false ->
          e = SimilarProductNotFound y)) /\
    ((MAX_IMAGES_PER_PRODUCT < length files)%nat \/
     forallb (found (db w)) (dto_similarProducts productData) = true ->
     errorKind e = ValidationError).
Proof.
  intros [Hnone|Hmany].
  - destruct files; [|discriminate]. clear Hnone.
    unfold createProduct, transactional, createProduct_commit.
    unfold bind at 1 2. unfold newObjectId at 1. simpl. unfold bind at 1.
    unfold ret at 1. unfold bind at 1.
    destruct (first_failure (found (db w)) (dto_similarProducts productData))
      as [Hall|(pre & y & post & Hsplit & Hpre & Hy)].
    + rewrite forOf_linkStep_all by done. simpl.
      set (p := set_similarProducts _ _).
      pose proof (validateSync_no_images p eq_refl) as Hpaths.
      unfold bind, save. destruct (validateSync p) as [|path paths] eqn:Hvs.
      { by apply elem_of_nil in Hpaths. }
      simpl. eexists. split; [done|]. split; [simpl; lia|]. split; [|done].
      intros _. split; [eauto|].
      intros pre y post Hsplit Hpre Hy. exfalso.
      by apply (forallb_has_failure _ _ _ _ _ Hsplit Hy).
    + rewrite Hsplit.
      edestruct forOf_linkStep_stops as [pending ->]; [exact Hpre|exact Hy|].
      simpl. eexists. split; [done|]. split; [simpl; lia|]. split.
      * intros _. split.
        -- intros Hall. exfalso.
           eapply forallb_has_failure; [reflexivity|exact Hy|exact Hall].
        -- intros pre' y' post' Hsplit' Hpre' Hy'. f_equal.
           by apply (first_failure_unique _ _ _ _ _ _ _ Hsplit' Hpre Hy Hpre' Hy').
      * intros [Hlt|Hall]; [simpl in Hlt; lia|].
        exfalso. eapply forallb_has_failure; [reflexivity|exact Hy|exact Hall].
  - unfold createProduct, transactional, createProduct_commit.
    apply Nat.ltb_lt in Hmany as Hb. rewrite Hb.
    unfold bind at 1 2. unfold newObjectId at 1. simpl.
    exists MaxImagesExceeded. split; [done|]. split; [done|]. split; [|done].
    intros Hz. rewrite Hz in Hmany. simpl in Hmany. lia.
Qed.

Lemma createProduct_rejects_wrong_image_count_witness :
  exists e,
    @createProduct workingStore (Some []) (sampleDto [2%N]) sampleWorld =
      (CustomError e 400,
       mkWorld (db sampleWorld) (fileStore sampleWorld) (N.succ (nextObjectId sampleWorld))) /\
    (exists paths, e = SchemaValidationFailed paths /\ PathImages ∈ paths) /\
    errorKind e = ValidationError.
Proof.
  destruct (@createProduct_rejects_wrong_image_count workingStore [] (sampleDto [2%N])
              sampleWorld (or_introl eq_refl)) as (e & Hrun & _ & Hnone & Hkind).
  exists e. split; [exact Hrun|]. split.
  - exact (proj1 (Hnone eq_refl) eq_refl).
  - exact (Hkind (or_intror eq_refl)).
Defined.

(** ** The schema and the image list *)

Lemma isValid_fields p :
  isValid p = validName (name p) && validDescription (description p) &&
              validPrice (price p) && validQuantityInStock (quantityInStock p) &&
              validImages (images p).
Proof.
  unfold isValid, validateSync.
  by destruct (validName _), (validDescription _), (validPrice _),
              (validQuantityInStock _), (validImages _).
Qed.

Lemma isValid_set_images p l :
  isValid p = true -> validImages l = true -> isValid (set_images p l) = true.
Proof.
  rewrite !isValid_fields. simpl. intros H Hl. rewrite Hl.
  apply andb_prop in H as [H _]. by rewrite H.
Qed.

Lemma validateSync_bad_images p : validImages (images p) = false -> PathImages ∈ validateSync p.
Proof.
  intros Hi. unfold validateSync. rewrite Hi. set_solver.
Qed.

Lemma validImages_length l l' : length l = length l' -> validImages l = validImages l'.
Proof. unfold validImages. by intros ->. Qed.

(** *** Similar arrays and permutations *)

Lemma existsb_eqb l x : existsb (N.eqb x) l = true <-> x ∈ l.
Proof.
  rewrite existsb_exists, list_elem_of_In. split.
  - by intros (y & Hin & ->%N.eqb_eq).
  - intros Hin. exists x. split; [done|apply N.eqb_refl].
Qed.

Lemma doesArraysHaveSimilarElements_spec a b :
  doesArraysHaveSimilarElements a b = true <->
  length a = length b /\ (forall x, x ∈ a -> x ∈ b) /\ (forall y, y ∈ b -> y ∈ a).
Proof.
  unfold doesArraysHaveSimilarElements.
  rewrite !andb_true_iff, Nat.eqb_eq, !forallb_forall.
  setoid_rewrite existsb_eqb. setoid_rewrite <- list_elem_of_In. tauto.
Qed.

(** Against a list without repetition, being similar is being a
    permutation. *)
Lemma similar_iff_permutation a b :
  NoDup b -> doesArraysHaveSimilarElements a b = true <-> a ≡ₚ b.
Proof.
  intros Hb. rewrite doesArraysHaveSimilarElements_spec. split.
  - intros (Hlen & Hab & Hba). symmetry.
    apply submseteq_length_Permutation; [|lia].
    by apply NoDup_submseteq.
  - intros Hp. split; [by rewrite Hp|]. split; intros x; by rewrite Hp.
Qed.

(** ** C6 *)


Lemma twoImages_NoDup : NoDup (images (sampleProduct 1 [10%N; 11%N] [])).
Proof. apply (bool_decide_unpack _). by vm_compute. Qed.


(** ** [indexOf] and [splice] *)

Lemma indexOf_None l x : indexOf l x = None <-> x ∉ l.
Proof.
  induction l as [|y l IH]; simpl.
  - split; [intros _; apply not_elem_of_nil|done].
  - destruct (N.eqb_spec y x) as [->|Hne].
    + split; [done|]. intros Hn. exfalso. apply Hn. set_solver.
    + destruct (indexOf l x) as [i|]; simpl.
      * split; [done|]. intros Hn. exfalso.
        assert (x ∉ l) as Hl by set_solver. by apply IH in Hl.
      * split; [|done]. intros _. apply not_elem_of_cons. split; [done|by apply IH].
Qed.

Lemma indexOf_Some_lt l x i : indexOf l x = Some i -> (i < length l)%nat.
Proof.
  revert i. induction l as [|y l IH]; simpl; intros i; [done|].
  destruct (N.eqb y x).
  - intros [= <-]. lia.
  - destruct (indexOf l x) as [j|]; simpl; [|done].
    intros [= <-]. specialize (IH j eq_refl). lia.
Qed.

Lemma length_splice1 l i : (i < length l)%nat -> length (splice1 l i) = pred (length l).
Proof.
  intros Hi. unfold splice1. rewrite length_app, length_firstn, length_skipn. lia.
Qed.

(** Without repetition, splicing out the index of an id removes the id. *)
Lemma splice1_indexOf_gone l x i :
  NoDup l -> indexOf l x = Some i -> x ∉ splice1 l i.
Proof.
  revert i. induction l as [|y l IH]; simpl; intros i Hnd; [done|].
  apply NoDup_cons in Hnd as [Hy Hnd].
  destruct (N.eqb_spec y x) as [->|Hne].
  - intros [= <-]. unfold splice1. simpl. by rewrite drop_0.
  - destruct (indexOf l x) as [j|] eqn:Hj; simpl; [|done].
    intros [= <-]. unfold splice1. simpl.
    apply not_elem_of_cons. split; [done|]. by apply (IH j).
Qed.

(** ** C7 *)




(** ** What a commit leaves in the image collection *)

Lemma commit_productWrites pending : forall d,
  Forall isProductWrite pending ->
  productImages (foldl applyWrite d pending) = productImages d.
Proof.
  induction pending as [|wr pending IH]; intros d Hall; simpl; [done|].
  inversion Hall as [|? ? Hwr Hrest]; subst. rewrite IH by done.
  by destruct wr.
Qed.

Lemma commit_saveImages imgs d i :
  i ∈ map image_id imgs ->
  is_Some (productImages (foldl applyWrite d (map SaveImage imgs)) !! i).
Proof.
  induction imgs as [|img imgs IH] using rev_ind; [by intros ?%elem_of_nil|].
  rewrite !map_app, foldl_app. simpl. intros [Hin|Hin]%elem_of_app.
  - destruct (decide (image_id img = i)) as [<-|Hne].
    + rewrite lookup_insert_eq. by eexists.
    + rewrite lookup_insert_ne by done. by apply IH.
  - apply list_elem_of_singleton in Hin as ->. rewrite lookup_insert_eq. by eexists.
Qed.

Lemma addWrites_isProductWrite d self ids :
  Forall isProductWrite (flat_map (addWrite d self) ids).
Proof.
  apply Forall_forall. intros wr (x & _ & Hwr)%list_elem_of_In%in_flat_map.
  unfold addWrite in Hwr. destruct (products d !! x); [|done].
  match type of Hwr with context [if ?b then _ else _] => destruct b end; [|done].
  by destruct Hwr as [<-|[]].
Qed.

Lemma world_eta w : mkWorld (db w) (fileStore w) (nextObjectId w) = w.
Proof. by destruct w. Qed.

Lemma set_images_same p : set_images p (images p) = p.
Proof. by destruct p. Qed.

(** The first loop of [createProduct] never throws: it leaves one image
    write per file pending and pushes the new ids on the product. *)
Lemma forOf_attachImageStep files : forall product c,
  exists imgs next,
    length imgs = length files /\
    forOf files attachImageStep product c =
    (Returned (set_images product (images product ++ map image_id imgs)),
     mkCtx (mkWorld (db (world c)) (fileStore (world c)) next)
           (session c ++ map SaveImage imgs)).
Proof.
  induction files as [|file files IH]; intros product c; simpl.
  - exists [], (nextObjectId (world c)). split; [done|]. unfold ret. simpl.
    by rewrite !app_nil_r, set_images_same, world_eta, ctx_eta.
  - unfold bind at 1. unfold attachImageStep at 1, createProductImage.
    unfold bind, newObjectId, issue, ret, push. simpl.
    edestruct IH as (imgs & next & Hlen & ->).
    exists (mkProductImage (nextObjectId (world c))
              (PRODUCT_IMG_UPLOAD_PATH ++ "/" ++ pretty (_id product) ++ "-" ++
               originalname file) :: imgs), next.
    split; [simpl; by rewrite Hlen|]. simpl.
    unfold set_images. simpl. by rewrite <- !app_assoc.
Qed.

(** What [createProduct] has committed when its transactional part
    returns. *)
Lemma createProduct_commit_returned files productData w product c1 :
  createProduct_commit files productData (mkCtx w []) = (Returned product, c1) ->
  session c1 = [] /\
  fileStore (world c1) = fileStore w /\
  products (db (world c1)) !! _id product = Some product /\
  (forall i, i ∈ images product -> is_Some (productImages (db (world c1)) !! i)) /\
  _id product = nextObjectId w /\
  length (images product) = length (default [] files).
Proof.
  unfold createProduct_commit. unfold bind at 1. unfold newObjectId at 1. simpl.
  destruct files as [files|]; [|discriminate].
  destruct (MAX_IMAGES_PER_PRODUCT <? length files)%nat; [discriminate|].
  unfold bind at 1.
  edestruct (forOf_attachImageStep files) as (imgs & next & Hlen & ->). simpl.
  unfold bind at 1.
  destruct (first_failure (found (db w)) (dto_similarProducts productData))
    as [Hall|(pre & y & post & Hsplit & Hpre & Hy)].
  - rewrite forOf_linkStep_all by done. simpl.
    set (p := set_similarProducts _ _).
    unfold bind, save. destruct (validateSync p); [|discriminate].
    unfold issue, commitTransaction, ret, push. simpl. intros [= <- <-]. simpl.
    split; [done|]. split; [done|]. split; [|split; [|split]].
    + rewrite foldl_snoc. simpl. apply lookup_insert_eq.
    + intros i Hi. rewrite foldl_snoc. simpl. rewrite foldl_app.
      rewrite commit_productWrites by apply addWrites_isProductWrite.
      by apply commit_saveImages.
    + done.
    + by rewrite length_map.
  - rewrite Hsplit.
    edestruct forOf_linkStep_stops as [pending ->]; [exact Hpre|exact Hy|].
    discriminate.
Qed.

Lemma forOf_upload `{gateway : FileStoreGateway} files : forall c r c',
  forOf files (fun _ file => upload file) tt c = (r, c') ->
  db (world c') = db (world c) /\ session c' = session c /\
  match r with Threw e => errorKind e = SideEffectError | Returned _ => True end.
Proof.
  induction files as [|file files IH]; intros c r c'; simpl.
  - unfold ret. by intros [= <- <-].
  - unfold bind at 1. unfold upload at 1.
    destruct (uploadProductImageFile file (fileStore (world c))) as [reason|fs].
    + by intros [= <- <-].
    + intros Hrest. by apply IH in Hrest.
Qed.

(** What [addNewImageOfProduct] has committed when its transactional
    part returns. *)
Lemma addNewImageOfProduct_commit_returned productId file w product c1 :
  addNewImageOfProduct_commit productId (Some file) (mkCtx w []) = (Returned product, c1) ->
  exists product0 image,
    products (db w) !! productId = Some product0 /\
    image_id image = nextObjectId w /\
    product = set_images product0 (push (images product0) (image_id image)) /\
    db (world c1) = foldl applyWrite (db w) [SaveImage image; SaveProduct product] /\
    fileStore (world c1) = fileStore w /\
    session c1 = [].
Proof.
  unfold addNewImageOfProduct_commit, bind, findById. simpl.
  destruct (products (db w) !! productId) as [product0|]; [|discriminate].
  destruct (negb _); [discriminate|].
  unfold createProductImage, bind, newObjectId, issue, ret, push, save. simpl.
  match goal with |- context [validateSync ?p] => destruct (validateSync p) end;
    [|discriminate].
  unfold issue, commitTransaction, push. simpl. intros [= <- <-].
  eexists _, (mkProductImage (nextObjectId w) _).
  split; [done|]. by split; [|split; [|split; [|split]]].
Qed.

(** ** C2 *)




(** ** The listing *)

Lemma countPages_ceiling totalElements size :
  (0 < size)%nat ->
  exists n, countPages totalElements size = Some n /\
            (totalElements <= n * size)%nat /\ (n * size < totalElements + size)%nat.
Proof.
  intros Hs. unfold countPages.
  destruct (Nat.eqb_spec size 0) as [|_]; [lia|].
  pose proof (Nat.div_mod_eq totalElements size) as Hdm.
  pose proof (Nat.mod_upper_bound totalElements size ltac:(lia)) as Hm.
  destruct (Nat.ltb_spec 0 (totalElements mod size)); eexists; (split; [done|]); nia.
Qed.

(** Both branches of the handler read the products that meet the
    criteria. *)
Lemma findAnd_meets regexTest criteria d :
  findAnd regexTest (filterQueryList criteria) d =
  List.filter (meets regexTest criteria) (collectionScan d).
Proof.
  unfold findAnd. apply filter_ext. intros p. unfold filterQueryList, meets.
  rewrite !forallb_app.
  destruct (fc_category criteria), (fc_isPopular criteria), (fc_search criteria) as [s|];
    simpl; try destruct (0 <? String.length s)%nat; simpl;
    by rewrite ?andb_true_r, ?andb_assoc.
Qed.

Lemma findAll_meets regexTest criteria d :
  length (filterQueryList criteria) = 0%nat ->
  findAll d = List.filter (meets regexTest criteria) (collectionScan d).
Proof.
  intros Hnone. unfold findAll. rewrite filter_all; [done|]. intros p _.
  unfold filterQueryList in Hnone. unfold meets.
  destruct (fc_category criteria), (fc_isPopular criteria), (fc_search criteria) as [s|];
    simpl in *; try discriminate; [|done].
  by destruct (0 <? String.length s)%nat.
Qed.

Lemma getProducts_unfold regexTest criteria w :
  getProducts regexTest criteria w =
  let matching := List.filter (meets regexTest criteria) (collectionScan (db w)) in
  mkPagination (limit (fc_size criteria) (skip (fc_page criteria * fc_size criteria) matching))
               (length matching)
               (countPages (length matching) (fc_size criteria))
               (fc_page criteria) (fc_size criteria).
Proof.
  unfold getProducts. destruct (Nat.ltb_spec 0 (length (filterQueryList criteria))).
  - by rewrite findAnd_meets.
  - by rewrite (findAll_meets regexTest criteria) by lia.
Qed.

Lemma elem_of_collectionScan d p :
  p ∈ collectionScan d <-> exists k, products d !! k = Some p.
Proof.
  unfold collectionScan. rewrite list_elem_of_fmap. split.
  - intros ([k q] & -> & Hin). exists k. by apply elem_of_map_to_list in Hin.
  - intros [k Hk]. exists (k, p). split; [done|]. by apply elem_of_map_to_list.
Qed.

(** Cutting a list into pages of a positive size and gluing the first
    [n] pages gives its first [n * size] elements. *)
Lemma pages_concat {A} (l : list A) size n :
  concat (map (fun page => take size (drop (page * size) l)) (seq 0 n)) = take (n * size) l.
Proof.
  induction n as [|n IH]; [done|].
  rewrite seq_S, map_app, concat_app, IH. simpl. rewrite app_nil_r.
  rewrite take_take_drop. f_equal. lia.
Qed.

(** X1. For a positive page size the page count the listing reports is
    the ceiling of the number of matching products over the size: the
    pages hold all of them, and one page fewer would not. *)
Theorem getProducts_page_count
    (regexTest : string -> string -> bool) (criteria : FilterCriteriaDto) (w : World) :
  (0 < fc_size criteria)%nat ->
  exists n,
    totalPages (getProducts regexTest criteria w) = Some n /\
    (totalElements (getProducts regexTest criteria w) <= n * fc_size criteria)%nat /\
    (n * fc_size criteria <
       totalElements (getProducts regexTest criteria w) + fc_size criteria)%nat /\
    (n = 0%nat <-> totalElements (getProducts regexTest criteria w) = 0%nat).
Proof.
  intros Hs. rewrite getProducts_unfold. simpl.
  destruct (countPages_ceiling
              (length (List.filter (meets regexTest criteria) (collectionScan (db w))))
              _ Hs) as (n & Hn & Hle & Hlt).
  exists n. split; [done|]. split; [done|]. split; [done|]. nia.
Qed.

Lemma getProducts_page_count_witness :
  exists n,
    totalPages (getProducts (fun _ _ => true) (mkFilterCriteriaDto 0 2 None None None)
                  linkedWorld) = Some n /\
    (totalElements (getProducts (fun _ _ => true) (mkFilterCriteriaDto 0 2 None None None)
                      linkedWorld) <= n * 2)%nat /\
    (n * 2 < totalElements (getProducts (fun _ _ => true)
                              (mkFilterCriteriaDto 0 2 None None None) linkedWorld) + 2)%nat /\
    (n = 0%nat <->
     totalElements (getProducts (fun _ _ => true) (mkFilterCriteriaDto 0 2 None None None)
                      linkedWorld) = 0%nat).
Proof.
  apply (getProducts_page_count (fun _ _ => true) (mkFilterCriteriaDto 0 2 None None None)
           linkedWorld).
  simpl. lia.
Defined.

(** X2. For a positive page size a page of the listing holds at most
    that many products; each of them is stored and meets every
    criterion of the request; a page below the page count is not empty
    and a page from the page count on is. *)
Theorem getProducts_page_content
    (regexTest : string -> string -> bool) (criteria : FilterCriteriaDto) (w : World)
    (n : nat) :
  (0 < fc_size criteria)%nat ->
  totalPages (getProducts regexTest criteria w) = Some n ->
  (length (content (getProducts regexTest criteria w)) <= fc_size criteria)%nat /\
  (forall p, p ∈ content (getProducts regexTest criteria w) ->
     (exists k, products (db w) !! k = Some p) /\ meets regexTest criteria p = true) /\
  ((fc_page criteria < n)%nat -> content (getProducts regexTest criteria w) <> []) /\
  ((n <= fc_page criteria)%nat -> content (getProducts regexTest criteria w) = []).
Proof.
  intros Hs. rewrite getProducts_unfold. simpl.
  set (matching := List.filter (meets regexTest criteria) (collectionScan (db w))).
  destruct (countPages_ceiling (length matching) _ Hs) as (n' & Hn & Hle & Hlt).
  rewrite Hn. intros [= <-]. unfold limit, skip.
  destruct (Nat.eqb_spec (fc_size criteria) 0) as [|_]; [lia|].
  split; [apply firstn_le_length|]. split; [|split].
  - intros p Hp.
    apply (subseteq_take (fc_size criteria)), subseteq_drop in Hp.
    apply list_elem_of_In, filter_In in Hp as [Hp Hm].
    split; [|done]. by apply elem_of_collectionScan, list_elem_of_In.
  - intros Hpage Hnil. apply (f_equal length) in Hnil.
    rewrite length_take, length_drop in Hnil. simpl in Hnil. nia.
  - intros Hpage. rewrite drop_ge; [by destruct (fc_size criteria)|]. nia.
Qed.

Lemma getProducts_page_content_witness :
  let page := getProducts (fun _ _ => true) (mkFilterCriteriaDto 1 2 None None None)
                linkedWorld in
  (length (content page) <= 2)%nat /\
  (forall p, p ∈ content page ->
     (exists k, products (db linkedWorld) !! k = Some p) /\
     meets (fun _ _ => true) (mkFilterCriteriaDto 1 2 None None None) p = true) /\
  content page <> [].
Proof.
  intros page.
  destruct (getProducts_page_content (fun _ _ => true)
              (mkFilterCriteriaDto 1 2 None None None) linkedWorld 2)
    as (Hlen & Hall & Hsome & _).
  - simpl. lia.
  - reflexivity.
  - split; [exact Hlen|]. split; [exact Hall|]. apply Hsome. simpl. lia.
Defined.

(** X3. For a positive page size the pages of the listing, taken in
    order up to the page count, are together exactly the stored
    products that meet the criteria, each as often as the scan yields
    it: none is skipped and none is repeated; their number is the total
    the listing reports. *)
Theorem getProducts_pages_cover
    (regexTest : string -> string -> bool) (criteria : FilterCriteriaDto) (w : World)
    (n : nat) :
  (0 < fc_size criteria)%nat ->
  totalPages (getProducts regexTest criteria w) = Some n ->
  concat (map (fun page => content (getProducts regexTest (withPage criteria page) w))
              (seq 0 n))
    = List.filter (meets regexTest criteria) (collectionScan (db w)) /\
  totalElements (getProducts regexTest criteria w)
    = length (List.filter (meets regexTest criteria) (collectionScan (db w))) /\
  (forall k p, products (db w) !! k = Some p -> meets regexTest criteria p = true ->
     exists page, (page < n)%nat /\
                  p ∈ content (getProducts regexTest (withPage criteria page) w)).
Proof.
  intros Hs. rewrite getProducts_unfold. simpl.
  set (matching := List.filter (meets regexTest criteria) (collectionScan (db w))).
  destruct (countPages_ceiling (length matching) _ Hs) as (n' & Hn & Hle & Hlt).
  rewrite Hn. intros [= <-].
  assert (Hpages : concat (map (fun page =>
              content (getProducts regexTest (withPage criteria page) w)) (seq 0 n'))
            = matching).
  { transitivity (take (n' * fc_size criteria) matching); [|by apply take_ge].
    rewrite <- pages_concat. f_equal. apply map_ext. intros page.
    rewrite getProducts_unfold. simpl. unfold limit, skip.
    by destruct (Nat.eqb_spec (fc_size criteria) 0) as [|_]; [lia|]. }
  split; [done|]. split; [done|].
  intros k p Hk Hm.
  assert (Hin : p ∈ matching).
  { apply list_elem_of_In, filter_In. split; [|done].
    apply list_elem_of_In, elem_of_collectionScan. by exists k. }
  rewrite <- Hpages in Hin. apply list_elem_of_In, in_concat in Hin as (l & Hl & Hp).
  apply in_map_iff in Hl as (page & <- & Hpage%in_seq).
  exists page. split; [lia|]. by apply list_elem_of_In.
Qed.

Lemma getProducts_pages_cover_witness :
  concat (map (fun page =>
            content (getProducts (fun _ _ => true)
                       (withPage (mkFilterCriteriaDto 0 2 None (Some false) None) page)
                       linkedWorld))
              (seq 0 2))
    = List.filter (meets (fun _ _ => true) (mkFilterCriteriaDto 0 2 None (Some false) None))
                  (collectionScan (db linkedWorld)) /\
  totalElements (getProducts (fun _ _ => true)
                   (mkFilterCriteriaDto 0 2 None (Some false) None) linkedWorld)
    = length (List.filter
                (meets (fun _ _ => true) (mkFilterCriteriaDto 0 2 None (Some false) None))
                (collectionScan (db linkedWorld))) /\
  (forall k p, products (db linkedWorld) !! k = Some p ->
     meets (fun _ _ => true) (mkFilterCriteriaDto 0 2 None (Some false) None) p = true ->
     exists page, (page < 2)%nat /\
       p ∈ content (getProducts (fun _ _ => true)
                      (withPage (mkFilterCriteriaDto 0 2 None (Some false) None) page)
                      linkedWorld)).
Proof.
  apply (getProducts_pages_cover (fun _ _ => true)
           (mkFilterCriteriaDto 0 2 None (Some false) None) linkedWorld 2).
  - simpl. lia.
  - reflexivity.
Defined.

(** ** [createProduct], run by run *)

Lemma forOf_attachImageStep_closed files : forall product c,
  forOf files attachImageStep product c =
  (Returned (set_images product
               (images product ++
                map image_id (imageRecords (nextObjectId (world c)) (_id product) files))),
   mkCtx (mkWorld (db (world c)) (fileStore (world c))
                  (advance (nextObjectId (world c)) (length files)))
         (session c ++
          map SaveImage (imageRecords (nextObjectId (world c)) (_id product) files))).
Proof.
  induction files as [|file files IH]; intros product c; simpl.
  - unfold ret, advance. simpl.
    by rewrite !app_nil_r, N.add_0_r, set_images_same, world_eta, ctx_eta.
  - unfold bind at 1. unfold attachImageStep at 1, createProductImage.
    unfold bind, newObjectId, issue, ret, push. simpl. rewrite IH. simpl.
    unfold set_images, advance. simpl. rewrite <- !app_assoc. simpl.
    do 3 f_equal. lia.
Qed.

Lemma length_imageRecords files : forall start owner,
  length (imageRecords start owner files) = length files.
Proof. induction files; intros; simpl; [done|]. by rewrite IHfiles. Qed.

(** The identifiers of the image records: consecutive, from the start. *)
Lemma image_ids_consecutive files : forall start owner,
  map image_id (imageRecords start owner files) =
  map (fun i => advance start i) (seq 0 (length files)).
Proof.
  induction files as [|file files IH]; intros start owner; simpl; [done|].
  unfold advance at 1. rewrite N.add_0_r. f_equal.
  rewrite IH, <- seq_shift, map_map. apply map_ext. intros i. unfold advance. lia.
Qed.

(** The run of the transactional part of [createProduct] on a list of
    at most three files, all listed products being there: it commits
    when the product passes the schema, and throws what the schema
    reports when not. *)
Lemma createProduct_commit_found files productData w :
  (length files <= MAX_IMAGES_PER_PRODUCT)%nat ->
  forallb (found (db w)) (dto_similarProducts productData) = true ->
  createProduct_commit (Some files) productData (mkCtx w []) =
  match validateSync (createdProduct w files productData) with
  | [] =>
    (Returned (createdProduct w files productData),
     mkCtx (mkWorld (foldl applyWrite (db w) (createWrites w files productData))
                    (fileStore w)
                    (advance (N.succ (nextObjectId w)) (length files))) [])
  | paths =>
    (Threw (SchemaValidationFailed paths),
     mkCtx (mkWorld (db w) (fileStore w) (advance (N.succ (nextObjectId w)) (length files)))
           (map SaveImage (imageRecords (N.succ (nextObjectId w)) (nextObjectId w) files) ++
            flat_map (addWrite (db w) (nextObjectId w)) (dto_similarProducts productData)))
  end.
Proof.
  intros Hlen Hall. unfold createProduct_commit.
  unfold bind at 1. unfold newObjectId at 1. simpl.
  destruct (Nat.ltb_spec MAX_IMAGES_PER_PRODUCT (length files)) as [|_]; [lia|].
  unfold bind at 1. rewrite forOf_attachImageStep_closed. simpl.
  unfold bind at 1. rewrite forOf_linkStep_all by done. simpl.
  change (set_similarProducts _ _) with (createdProduct w files productData).
  unfold bind, save.
  destruct (validateSync (createdProduct w files productData)); [|done].
  unfold issue, commitTransaction, ret, push, createWrites. simpl.
  by rewrite <- !app_assoc.
Qed.

(** The other runs: they throw before anything is committed. *)
Lemma createProduct_commit_threw files productData w e c1 :
  createProduct_commit files productData (mkCtx w []) = (Threw e, c1) ->
  db (world c1) = db w /\ fileStore (world c1) = fileStore w /\
  errorKind e <> SideEffectError.
Proof.
  destruct files as [files|].
  2: { unfold createProduct_commit, bind, newObjectId. simpl. by intros [= <- <-]. }
  destruct (Nat.ltb_spec MAX_IMAGES_PER_PRODUCT (length files)) as [Hmany|Hfew].
  { unfold createProduct_commit, bind, newObjectId. simpl.
    apply Nat.ltb_lt in Hmany. rewrite Hmany. by intros [= <- <-]. }
  destruct (first_failure (found (db w)) (dto_similarProducts productData))
    as [Hall|(pre & y & post & Hsplit & Hpre & Hy)].
  - rewrite createProduct_commit_found by done.
    destruct (validateSync _); [discriminate|]. by intros [= <- <-].
  - unfold createProduct_commit.
    unfold bind at 1. unfold newObjectId at 1. simpl.
    destruct (Nat.ltb_spec MAX_IMAGES_PER_PRODUCT (length files)) as [|_]; [lia|].
    unfold bind at 1. rewrite forOf_attachImageStep_closed. simpl.
    unfold bind at 1. rewrite Hsplit.
    edestruct (forOf_linkStep_stops pre y post) as [pending ->];
      [exact Hpre|exact Hy|].
    by intros [= <- <-].
Qed.

(** A run that returns is a run on at most three files with all listed
    products found and a product that passes the schema. *)
Lemma createProduct_commit_returned_closed files productData w product c1 :
  createProduct_commit files productData (mkCtx w []) = (Returned product, c1) ->
  exists fs,
    files = Some fs /\
    (length fs <= MAX_IMAGES_PER_PRODUCT)%nat /\
    forallb (found (db w)) (dto_similarProducts productData) = true /\
    isValid (createdProduct w fs productData) = true /\
    product = createdProduct w fs productData /\
    c1 = mkCtx (mkWorld (foldl applyWrite (db w) (createWrites w fs productData))
                        (fileStore w)
                        (advance (N.succ (nextObjectId w)) (length fs))) [].
Proof.
  destruct files as [files|].
  2: { unfold createProduct_commit, bind, newObjectId. simpl. discriminate. }
  destruct (Nat.ltb_spec MAX_IMAGES_PER_PRODUCT (length files)) as [Hmany|Hfew].
  { unfold createProduct_commit, bind, newObjectId. simpl.
    apply Nat.ltb_lt in Hmany. rewrite Hmany. discriminate. }
  destruct (first_failure (found (db w)) (dto_similarProducts productData))
    as [Hall|(pre & y & post & Hsplit & Hpre & Hy)].
  - rewrite createProduct_commit_found by done.
    destruct (validateSync _) eqn:Hv; [|discriminate]. intros [= <- <-].
    exists files. apply validateSync_isValid in Hv. by repeat split.
  - unfold createProduct_commit.
    unfold bind at 1. unfold newObjectId at 1. simpl.
    destruct (Nat.ltb_spec MAX_IMAGES_PER_PRODUCT (length files)) as [|_]; [lia|].
    unfold bind at 1. rewrite forOf_attachImageStep_closed. simpl.
    unfold bind at 1. rewrite Hsplit.
    edestruct (forOf_linkStep_stops pre y post) as [pending ->];
      [exact Hpre|exact Hy|].
    discriminate.
Qed.

Lemma commit_imageWrites_products imgs : forall d,
  products (foldl applyWrite d (map SaveImage imgs)) = products d.
Proof. induction imgs as [|img imgs IH]; intros d; simpl; [done|]. by rewrite IH. Qed.

(** What [createProduct] leaves under an id other than the new one. *)
Lemma createWrites_other w files productData k :
  keyed (db w) -> k <> nextObjectId w ->
  products (foldl applyWrite (db w) (createWrites w files productData)) !! k =
  if decide (k ∈ dto_similarProducts productData)
  then match addWrite (db w) (nextObjectId w) k with
       | [SaveProduct p] => Some p
       | _ => products (db w) !! k
       end
  else products (db w) !! k.
Proof.
  intros Hk Hne. unfold createWrites. rewrite app_assoc, foldl_snoc. simpl.
  rewrite lookup_insert_ne by done. rewrite foldl_app.
  rewrite (commit_flat_map _ _ _ _ (addWrite_shape (db w) (nextObjectId w) Hk)).
  by rewrite commit_imageWrites_products.
Qed.

Lemma createWrites_new w files productData :
  products (foldl applyWrite (db w) (createWrites w files productData)) !! nextObjectId w
  = Some (createdProduct w files productData).
Proof.
  unfold createWrites. rewrite app_assoc.
  apply (commit_last _ _ (createdProduct w files productData)).
Qed.

Lemma createWrites_images w files productData i :
  i ∈ images (createdProduct w files productData) ->
  is_Some (productImages (foldl applyWrite (db w) (createWrites w files productData)) !! i).
Proof.
  intros Hi. unfold createWrites. rewrite app_assoc, foldl_snoc. simpl.
  rewrite foldl_app, commit_productWrites by apply addWrites_isProductWrite.
  by apply commit_saveImages.
Qed.

(** A run of [createProduct] is its transactional part, then the
    uploads. *)
Lemma createProduct_cases `{gateway : FileStoreGateway} files productData w r w' :
  createProduct files productData w = (r, w') ->
  (exists e c1,
     createProduct_commit files productData (mkCtx w []) = (Threw e, c1) /\
     r = CustomError e 400 /\ w' = world c1) \/
  (exists product c1 c2,
     createProduct_commit files productData (mkCtx w []) = (Returned product, c1) /\
     db w' = db (world c1) /\ w' = world c2 /\
     ((forOf (default [] files) (fun _ file => upload file) tt c1 = (Returned tt, c2) /\
       r = CustomSuccess (OneProduct product) 200) \/
      (exists e, forOf (default [] files) (fun _ file => upload file) tt c1 = (Threw e, c2) /\
                 errorKind e = SideEffectError /\ r = CustomError e 400))).
Proof.
  unfold createProduct, transactional. unfold bind at 1.
  destruct (createProduct_commit files productData (mkCtx w [])) as [[e|product] c1] eqn:Hc.
  - intros [= <- <-]. left. by exists e, c1.
  - unfold bind at 1.
    destruct (forOf (default [] files) _ tt c1) as [[e|[]] c2] eqn:Hup.
    + intros [= <- <-]. right. exists product, c1, c2.
      destruct (forOf_upload _ _ _ _ Hup) as (Hdb & _ & Hkind).
      split; [done|]. split; [done|]. split; [done|]. right. by exists e.
    + unfold ret. intros [= <- <-]. right. exists product, c1, c2.
      destruct (forOf_upload _ _ _ _ Hup) as (Hdb & _ & _).
      split; [done|]. split; [done|]. split; [done|]. by left.
Qed.

(** X4. What a successful [createProduct] has done: the request carried
    one to three files; the product sits under the identifier the driver
    generated, with the request's scalar fields, one image id per file
    (the next identifiers, in file order) each with its record stored,
    and the request's list of similar products; and, in a keyed,
    schema-valid store, every product of that list now lists the new
    product. *)
Theorem createProduct_stores_the_product `{gateway : FileStoreGateway}
    (files : option (list File)) (productData : CreateProductDto) (w w' : World)
    (data : Payload) (st : Z) :
  createProduct files productData w = (CustomSuccess data st, w') ->
  exists fs product,
    files = Some fs /\ data = OneProduct product /\ st = 200%Z /\
    (1 <= length fs <= 3)%nat /\
    _id product = nextObjectId w /\
    name product = dto_name productData /\
    description product = dto_description productData /\
    quantityInStock product = dto_quantityInStock productData /\
    price product = dto_price productData /\
    category product = dto_category productData /\
    isPopular product = dto_isPopular productData /\
    images product = map (advance (N.succ (nextObjectId w))) (seq 0 (length fs)) /\
    similarProducts product = dto_similarProducts productData /\
    products (db w') !! nextObjectId w = Some product /\
    (forall i, i ∈ images product -> is_Some (productImages (db w') !! i)) /\
    (keyed (db w) -> allValid (db w) ->
     forall b, b ∈ dto_similarProducts productData ->
       exists pb, products (db w') !! b = Some pb /\ nextObjectId w ∈ similarProducts pb).
Proof.
  intros Hrun.
  destruct (createProduct_cases _ _ _ _ _ Hrun)
    as [(e & c1 & _ & Hr & _)|(product & c1 & c2 & Hc & Hdb & _ & Hup)];
    [discriminate|].
  destruct Hup as [[_ Hr]|(e & _ & _ & Hr)]; [|discriminate].
  inversion Hr; subst data st. clear Hr.
  destruct (createProduct_commit_returned_closed _ _ _ _ _ Hc)
    as (fs & -> & Hlen & Hall & Hv & -> & ->).
  simpl in Hdb. rewrite Hdb.
  exists fs, (createdProduct w fs productData).
  split; [done|]. split; [done|]. split; [done|]. split.
  { rewrite isValid_fields in Hv. apply andb_prop in Hv as [_ Hv].
    change (images (createdProduct w fs productData))
      with (map image_id (imageRecords (N.succ (nextObjectId w)) (nextObjectId w) fs))
      in Hv.
    unfold validImages in Hv. rewrite length_map, length_imageRecords in Hv.
    destruct (length fs) as [|[|[|[|n]]]]; simpl in Hv; try discriminate; lia. }
  do 7 (split; [done|]).
  split; [apply image_ids_consecutive|]. split; [done|].
  split; [apply createWrites_new|]. split; [apply createWrites_images|].
  intros Hk Hvalid b Hb.
  destruct (decide (b = nextObjectId w)) as [->|Hne].
  - rewrite createWrites_new. eexists. split; [done|]. done.
  - rewrite createWrites_other by done. rewrite decide_True by done.
    apply list_elem_of_In in Hb as Hin.
    pose proof (proj1 (forallb_forall _ _) Hall _ Hin) as Hf.
    unfold found in Hf. unfold addWrite.
    destruct (products (db w) !! b) as [pb|] eqn:Hpb; [|done].
    rewrite isValid_set_similarProducts, (Hvalid _ _ Hpb).
    eexists. split; [done|]. simpl. unfold push. set_solver.
Qed.

Lemma createProduct_stores_the_product_witness :
  exists fs product,
    Some [mkFile "a.png" "bytes"; mkFile "b.png" "more"] = Some fs /\
    (@createProduct workingStore (Some [mkFile "a.png" "bytes"; mkFile "b.png" "more"])
       (sampleDto [2%N]) sampleWorld).1 = CustomSuccess (OneProduct product) 200 /\
    images product = [101%N; 102%N] /\
    similarProducts product = [2%N] /\
    exists pb,
      products (db (@createProduct workingStore
                      (Some [mkFile "a.png" "bytes"; mkFile "b.png" "more"])
                      (sampleDto [2%N]) sampleWorld).2) !! 2%N = Some pb /\
      100%N ∈ similarProducts pb.
Proof.
  destruct (@createProduct_stores_the_product workingStore
              (Some [mkFile "a.png" "bytes"; mkFile "b.png" "more"]) (sampleDto [2%N])
              sampleWorld _ _ _ eq_refl)
    as (fs & product & Hfs & Hdata & _ & _ & _ & _ & _ & _ & _ & _ & _ &
        Himgs & Hsims & _ & _ & Hedges).
  exists fs, product. split; [exact Hfs|].
  injection Hfs as <-. injection Hdata as <-.
  split; [reflexivity|]. split; [exact Himgs|]. split; [exact Hsims|].
  apply Hedges.
  - apply (bool_decide_unpack _). by vm_compute.
  - apply (bool_decide_unpack _). by vm_compute.
  - simpl. set_solver.
Defined.

Lemma forOf_upload_returns `{gateway : FileStoreGateway} files :
  (forall file store, exists store', uploadProductImageFile file store = inr store') ->
  forall c, exists c',
    forOf files (fun _ file => upload file) tt c = (Returned tt, c').
Proof.
  intros Hup. induction files as [|file files IH]; intros c; simpl.
  - by exists c.
  - unfold bind at 1. unfold upload at 1.
    destruct (Hup file (fileStore (world c))) as [store' ->]. apply IH.
Qed.



(** ** Failures leave the store alone *)

Lemma createProduct_failed `{gateway : FileStoreGateway} files productData w e st w' :
  createProduct files productData w = (CustomError e st, w') ->
  errorKind e <> SideEffectError ->
  db w' = db w /\ fileStore w' = fileStore w.
Proof.
  intros Hrun Hkind.
  destruct (createProduct_cases _ _ _ _ _ Hrun)
    as [(e' & c1 & Hc & Hr & ->)|(product & c1 & c2 & _ & _ & _ & Hup)].
  - destruct (createProduct_commit_threw _ _ _ _ _ Hc) as (Hdb & Hfs & _). done.
  - destruct Hup as [[_ Hr]|(e' & _ & Hk & Hr)]; [discriminate|].
    inversion Hr; subst. done.
Qed.

Lemma addNewImageOfProduct_failed `{gateway : FileStoreGateway} productId file w e st w' :
  addNewImageOfProduct productId file w = (CustomError e st, w') ->
  errorKind e <> SideEffectError ->
  db w' = db w /\ fileStore w' = fileStore w.
Proof.
  unfold addNewImageOfProduct, addNewImageOfProduct_commit, transactional, bind,
    findById, createProductImage, newObjectId, issue, save, commitTransaction, upload,
    ret, throw, push.
  simpl. intros Hrun Hkind.
  repeat case_match; simplify_eq; simpl in *; done.
Qed.

Lemma deleteImageOfProduct_failed `{gateway : FileStoreGateway} productId imageId w e st w' :
  deleteImageOfProduct productId imageId w = (CustomError e st, w') ->
  errorKind e <> SideEffectError ->
  db w' = db w /\ fileStore w' = fileStore w.
Proof.
  unfold deleteImageOfProduct, transactional, bind, findById, findImageById, deleteOne,
    issue, save, commitTransaction, unlink, ret, throw, push.
  simpl. intros Hrun Hkind.
  repeat case_match; simplify_eq; simpl in *; done.
Qed.

(** The batch lookup reads: whatever its loop answers, the context is
    what it was. *)
Lemma forOf_lookup productIds : forall acc c r c',
  forOf productIds (fun found productId =>
    let! product := findById productId in
    match product with
    | None => throw (ProductDoesntExist productId)
    | Some product => ret (push found product)
    end) acc c = (r, c') ->
  c' = c.
Proof.
  induction productIds as [|productId productIds IH]; intros acc c r c'; simpl.
  - unfold ret. by intros [= _ <-].
  - unfold bind at 1. unfold bind at 1. unfold findById at 1.
    destruct (products (db (world c)) !! productId).
    + unfold ret at 1. apply IH.
    + unfold throw. by intros [= _ <-].
Qed.

(** A failure of a handler without a session leaves the world as it
    was. *)
Lemma plain_handlers_failed `{gateway : FileStoreGateway} r w e st w' :
  handle r w = (CustomError e st, w') ->
  match r with
  | GetProduct _ | GetProductsWithIds _ | RearrangeImagesOfProduct _ _
  | EditNameOfProduct _ _ | EditQuantityOfProduct _ _ | EditDescriptionOfProduct _ _
  | EditCategoryOfProduct _ _ => True
  | _ => False
  end ->
  w' = w.
Proof.
  destruct r; simpl; try done; intros Hrun _; revert Hrun.
  - unfold getProduct. run_plain.
  - unfold getProductsWithIds, plain. destruct body; try (run_plain; fail).
    unfold bind.
    destruct (forOf l _ [] (mkCtx w [])) as [[e'|found] c'] eqn:Hloop;
      apply forOf_lookup in Hloop; subst c'; unfold ret; by intros [= <-].
  - unfold rearrangeImagesOfProduct. run_plain.
  - unfold editNameOfProduct. run_plain.
  - unfold editQuantityOfProduct. run_plain.
  - unfold editDescriptionOfProduct. run_plain.
  - unfold editCategoryOfProduct. run_plain.
Qed.



(** ** Every write is a validated write *)

(** Whatever the request, the collections after it are the collections
    before it with some writes applied, and every product among those
    writes has passed the schema. *)
Lemma handle_writes `{gateway : FileStoreGateway} r w :
  exists ws, db (handle r w).2 = foldl applyWrite (db w) ws /\ Forall savesValid ws.
Proof.
  destruct r; simpl.
  - destruct (createProduct files productData w) as [r w'] eqn:Hrun.
    destruct (createProduct_cases _ _ _ _ _ Hrun)
      as [(e & c1 & Hc & _ & ->)|(product & c1 & c2 & Hc & Hdb & _ & _)]; simpl.
    + destruct (createProduct_commit_threw _ _ _ _ _ Hc) as (-> & _ & _). by exists [].
    + destruct (createProduct_commit_returned_closed _ _ _ _ _ Hc)
        as (fs & _ & _ & _ & Hv & _ & ->).
      rewrite Hdb. simpl. eexists. split; [done|].
      unfold createWrites. rewrite !Forall_app. split; [|split].
      * apply Forall_forall. by intros wr (img & -> & _)%list_elem_of_fmap.
      * apply Forall_forall. intros wr (x & _ & Hwr)%list_elem_of_In%in_flat_map.
        unfold addWrite in Hwr. destruct (products (db w) !! x); [|done].
        match type of Hwr with context [if ?b then _ else _] => destruct b eqn:Hb end;
          [|done]. destruct Hwr as [<-|[]]. exact Hb.
      * by repeat constructor.
  - unfold getProduct. run_plain; by exists [].
  - unfold getProductsWithIds, plain. destruct body; try (run_plain; by exists []).
    unfold bind.
    destruct (forOf l _ [] (mkCtx w [])) as [[e'|found] c'] eqn:Hloop;
      apply forOf_lookup in Hloop; subst c'; by exists [].
  - unfold addNewImageOfProduct, addNewImageOfProduct_commit, transactional, bind,
      findById, createProductImage, newObjectId, save, issue, commitTransaction, upload,
      ret, throw, push.
    simpl. repeat case_match; simplify_eq; simpl in *; give_writes.
  - unfold deleteImageOfProduct, transactional, bind, findById, findImageById, deleteOne,
      save, issue, commitTransaction, unlink, ret, throw, push.
    simpl. repeat case_match; simplify_eq; simpl in *; give_writes.
  - unfold rearrangeImagesOfProduct. run_plain; give_writes.
  - unfold editNameOfProduct. run_plain; give_writes.
  - unfold editQuantityOfProduct. run_plain; give_writes.
  - unfold editDescriptionOfProduct. run_plain; give_writes.
  - unfold editCategoryOfProduct. run_plain; give_writes.
  - destruct (editSimilarProductsOfProduct productId body w) as [[data st|e st] w'] eqn:Hrun.
    + destruct body as [| |newList]; try discriminate.
      destruct (products (db w) !! productId) as [product0|] eqn:Hp.
      * destruct (editSimilar_succeeded _ _ _ _ _ _ _ Hp Hrun) as (_ & Hv & _ & ->).
        simpl. eexists. split; [done|]. apply Forall_app. split.
        -- apply edgeWrites_savesValid.
        -- by repeat constructor.
      * unfold editSimilarProductsOfProduct, transactional, bind, findById in Hrun.
        simpl in Hrun. rewrite Hp in Hrun. discriminate.
    + rewrite (editSimilar_failed_unchanged _ _ _ _ _ _ Hrun). by exists [].
Qed.



(** ** The edges after an edit *)

Lemma filter_none {A} (f : A -> bool) l :
  (forall x, In x l -> f x = false) -> List.filter f l = [].
Proof.
  induction l as [|x l IH]; simpl; intros H; [done|].
  rewrite (H x) by auto. apply IH. auto.
Qed.

Lemma removeWrites_isProductWrite d self ids :
  Forall isProductWrite (flat_map (removeWrite d self) ids).
Proof.
  apply Forall_forall. intros wr (x & _ & Hwr)%list_elem_of_In%in_flat_map.
  unfold removeWrite in Hwr. destruct (products d !! x); [|done].
  match type of Hwr with context [if ?b then _ else _] => destruct b end; [|done].
  by destruct Hwr as [<-|[]].
Qed.

(** Under an id other than the edited one, the edit leaves a document
    where there was one, the same but for its list, and that list the
    same but for the edited id; and none where there was none. *)
Lemma editSimilar_other_frame d product0 newList k :
  keyed d -> k <> _id product0 ->
  match products d !! k with
  | Some pk =>
    exists l,
      products (foldl applyWrite d
                  (edgeWrites d product0 newList ++
                   [SaveProduct (editedProduct d product0 newList)])) !! k
        = Some (set_similarProducts pk l) /\
      forall x, x <> _id product0 -> x ∈ l <-> x ∈ similarProducts pk
  | None =>
    products (foldl applyWrite d
                (edgeWrites d product0 newList ++
                 [SaveProduct (editedProduct d product0 newList)])) !! k = None
  end.
Proof.
  intros Hk Hne. rewrite editSimilar_other by done.
  unfold addWrite, removeWrite.
  destruct (products d !! k) as [pk|] eqn:Hpk; [|by repeat case_decide].
  assert (Hsame : exists l, Some pk = Some (set_similarProducts pk l) /\
            forall x, x <> _id product0 -> x ∈ l <-> x ∈ similarProducts pk).
  { exists (similarProducts pk). by rewrite set_similarProducts_same. }
  assert (Hpush : exists l,
            Some (set_similarProducts pk (push (similarProducts pk) (_id product0)))
              = Some (set_similarProducts pk l) /\
            forall x, x <> _id product0 -> x ∈ l <-> x ∈ similarProducts pk).
  { eexists. split; [done|]. intros x Hx. unfold push. set_solver. }
  assert (Hfilter : exists l,
            Some (set_similarProducts pk
                    (List.filter (fun id => negb (N.eqb id (_id product0)))
                                 (similarProducts pk)))
              = Some (set_similarProducts pk l) /\
            forall x, x <> _id product0 -> x ∈ l <-> x ∈ similarProducts pk).
  { eexists. split; [done|]. intros x Hx.
    rewrite !list_elem_of_In, filter_In, negb_true_iff, N.eqb_neq. tauto. }
  repeat case_decide;
    repeat match goal with |- context [if ?b then _ else _] => destruct b end; done.
Qed.

(** X8. In a well-formed store a successful edit of the similar
    products of [a] leaves exactly the requested edges at [a]: the
    stored list of [a] holds the ids of the request and no other, and
    any other product lists [a] if and only if it is in the request. *)
Theorem editSimilar_sets_the_edges
    (a : ObjectId) (newList : list ObjectId) (w w' : World) (data : Payload) (st : Z) :
  wellFormed (db w) ->
  editSimilarProductsOfProduct a (Ids newList) w = (CustomSuccess data st, w') ->
  exists pa',
    products (db w') !! a = Some pa' /\ data = OneProduct pa' /\
    (forall x, x ∈ similarProducts pa' <-> x ∈ newList) /\
    (forall b pb', b <> a -> products (db w') !! b = Some pb' ->
       a ∈ similarProducts pb' <-> b ∈ newList).
Proof.
  intros (Hk & Hv & Hm) Hrun.
  destruct (products (db w) !! a) as [pa|] eqn:Hpa.
  2: { unfold editSimilarProductsOfProduct, transactional, bind, findById in Hrun.
       simpl in Hrun. rewrite Hpa in Hrun. discriminate. }
  pose proof (Hk _ _ Hpa) as Hida.
  destruct (editSimilar_succeeded _ _ _ _ _ _ _ Hpa Hrun) as (Hadd & _ & -> & ->).
  cbn [db]. set (d := db w) in *.
  assert (Hback : forall k pk b, products d !! k = Some pk -> b ∈ similarProducts pk ->
            exists pb, products d !! b = Some pb /\ k ∈ similarProducts pb).
  { intros k pk b Hpk Hb. pose proof (Hm _ _ Hpk) as Hedges.
    rewrite Forall_forall in Hedges. specialize (Hedges _ Hb).
    unfold listsBack in Hedges. fold d in Hedges.
    destruct (products d !! b) as [pb|]; [by exists pb|done]. }
  exists (editedProduct d pa newList). split.
  { rewrite <- Hida. apply (commit_last _ _ (editedProduct d pa newList)). }
  split; [done|]. split.
  - intros x. simpl. rewrite elem_of_app, elem_of_addSimilarProductIds.
    rewrite list_elem_of_In, filter_In, <- list_elem_of_In. split.
    + intros [[Hx Hs]|[Hx _]]; [|done].
      destruct (decide (x ∈ newList)) as [|Hn]; [done|].
      destruct (Hback _ _ _ Hpa Hx) as (px & Hpx & _).
      rewrite survives_removed in Hs; [done| |by rewrite Hpx].
      by apply elem_of_removeSimilarProductIds.
    + intros Hx. destruct (decide (x ∈ similarProducts pa)) as [Hold|Hnew].
      * left. split; [done|]. apply survives_not_removed.
        rewrite elem_of_removeSimilarProductIds. tauto.
      * by right.
  - intros b pb' Hba Hpb'. rewrite <- Hida in Hba.
    destruct (editSimilar_other_cases _ _ _ _ _ Hk Hv Hba Hpb') as (pb & Hpb & Hcases).
    assert (Hsym : a ∈ similarProducts pb <-> b ∈ similarProducts pa).
    { split.
      - intros Hin. destruct (Hback _ _ _ Hpb Hin) as (pa0 & Hpa0 & Hb).
        rewrite Hpa in Hpa0. by inversion Hpa0; subst.
      - intros Hin. destruct (Hback _ _ _ Hpa Hin) as (pb0 & Hpb0 & Ha).
        rewrite Hpb in Hpb0. by inversion Hpb0; subst. }
    destruct Hcases as [[Ha ->]|[(Hna & Hr & ->)|(Hna & Hnr & ->)]].
    + apply elem_of_addSimilarProductIds in Ha as [Hnew _].
      split; [done|]. intros _. simpl. unfold push. rewrite Hida. set_solver.
    + apply elem_of_removeSimilarProductIds in Hr as [_ Hnot].
      split; [|done]. simpl. intros [_ Hf]%list_elem_of_In%filter_In.
      rewrite Hida, N.eqb_refl in Hf. discriminate.
    + rewrite Hsym. rewrite elem_of_addSimilarProductIds in Hna.
      rewrite elem_of_removeSimilarProductIds in Hnr.
      destruct (decide (b ∈ newList)), (decide (b ∈ similarProducts pa)); tauto.
Qed.

Lemma editSimilar_sets_the_edges_witness :
  let run := editSimilarProductsOfProduct 1 (Ids [2%N]) linkedWorld in
  exists pa',
    products (db run.2) !! 1%N = Some pa' /\
    OneProduct (sampleProduct 1 [10%N] [2%N]) = OneProduct pa' /\
    (forall x, x ∈ similarProducts pa' <-> x ∈ [2%N]) /\
    (forall b pb', b <> 1%N -> products (db run.2) !! b = Some pb' ->
       1%N ∈ similarProducts pb' <-> b ∈ [2%N]).
Proof.
  apply (editSimilar_sets_the_edges 1 [2%N] linkedWorld _ _ 200 linkedWorld_wellFormed).
  reflexivity.
Defined.



(** X10. Editing the similar products of a stored, schema-valid
    product with a request that names exactly the ids it already lists,
    in any order and with any repetition, changes nothing: the answer is
    the product as stored and the world is what it was. *)
Theorem editSimilar_same_ids_changes_nothing
    (a : ObjectId) (newList : list ObjectId) (w : World) (pa : Product) :
  products (db w) !! a = Some pa ->
  _id pa = a ->
  isValid pa = true ->
  (forall x, x ∈ newList <-> x ∈ similarProducts pa) ->
  editSimilarProductsOfProduct a (Ids newList) w = (CustomSuccess (OneProduct pa) 200, w).
Proof.
  intros Hpa Hid Hv Hsame.
  assert (Hrem : removeSimilarProductIds pa newList = []).
  { apply filter_none. intros x Hx%list_elem_of_In.
    apply negb_false_iff, some_equals_spec. by apply Hsame. }
  assert (Hadd : addSimilarProductIds pa newList = []).
  { apply filter_none. intros x Hx%list_elem_of_In.
    apply negb_false_iff, some_equals_spec. by apply Hsame. }
  rewrite (editSimilar_success a newList w pa Hpa) by (by rewrite ?Hadd).
  assert (Hedited : editedProduct (db w) pa newList = pa).
  { unfold editedProduct. rewrite Hrem, Hadd, app_nil_r.
    rewrite filter_all by done. apply set_similarProducts_same. }
  unfold edgeWrites. rewrite Hrem, Hadd, Hedited. simpl.
  rewrite Hid, insert_id by done. f_equal. destruct w as [[ps imgs] fs next]. done.
Qed.

Lemma editSimilar_same_ids_changes_nothing_witness :
  editSimilarProductsOfProduct 1 (Ids [3%N; 3%N]) linkedWorld =
    (CustomSuccess (OneProduct (sampleProduct 1 [10%N] [3%N])) 200, linkedWorld).
Proof.
  apply (editSimilar_same_ids_changes_nothing 1 [3%N; 3%N] linkedWorld
           (sampleProduct 1 [10%N] [3%N])).
  - reflexivity.
  - reflexivity.
  - reflexivity.
  - intros x. simpl. set_solver.
Defined.

(** ** The batch lookup *)

Lemma forOf_lookup_found productIds : forall acc c,
  (forall id, id ∈ productIds -> is_Some (products (db (world c)) !! id)) ->
  exists docs,
    forOf productIds (fun found productId =>
      let! product := findById productId in
      match product with
      | None => throw (ProductDoesntExist productId)
      | Some product => ret (push found product)
      end) acc c = (Returned (acc ++ docs), c) /\
    Forall2 (fun id p => products (db (world c)) !! id = Some p) productIds docs.
Proof.
  induction productIds as [|productId productIds IH]; intros acc c Hall; simpl.
  - exists []. by rewrite app_nil_r.
  - unfold bind at 1. unfold bind at 1. unfold findById at 1.
    destruct (Hall productId) as [p Hp]; [set_solver|]. rewrite Hp. unfold ret at 1.
    destruct (IH (push acc p) c) as (docs & -> & Hdocs); [set_solver|].
    exists (p :: docs). unfold push. rewrite <- app_assoc. split; [done|].
    by constructor.
Qed.

Lemma forOf_lookup_missing pre y post : forall acc c,
  (forall id, id ∈ pre -> is_Some (products (db (world c)) !! id)) ->
  products (db (world c)) !! y = None ->
  forOf (pre ++ y :: post) (fun found productId =>
    let! product := findById productId in
    match product with
    | None => throw (ProductDoesntExist productId)
    | Some product => ret (push found product)
    end) acc c = (Threw (ProductDoesntExist y), c).
Proof.
  induction pre as [|productId pre IH]; intros acc c Hall Hy; simpl.
  - unfold bind at 1. unfold bind at 1. unfold findById at 1. by rewrite Hy.
  - unfold bind at 1. unfold bind at 1. unfold findById at 1.
    destruct (Hall productId) as [p Hp]; [set_solver|]. rewrite Hp. unfold ret at 1.
    apply IH; [|done]. set_solver.
Qed.

(** X11. The batch lookup is all or nothing and only reads.  When every
    requested id has a product, it answers the products in request
    order, one per requested id (repeated ids included); when some id
    has none, it answers the error for the first such id of the request
    and no product at all.  Either way the world is what it was. *)
Theorem getProductsWithIds_all_or_nothing (productIds : list ObjectId) (w : World) :
  ((forall id, id ∈ productIds -> is_Some (products (db w) !! id)) ->
   exists docs,
     getProductsWithIds (Ids productIds) w = (CustomSuccess (ManyProducts docs) 200, w) /\
     Forall2 (fun id p => products (db w) !! id = Some p) productIds docs) /\
  (forall pre y post,
     productIds = pre ++ y :: post ->
     (forall id, id ∈ pre -> is_Some (products (db w) !! id)) ->
     products (db w) !! y = None ->
     getProductsWithIds (Ids productIds) w = (CustomError (ProductDoesntExist y) 500, w)).
Proof.
  split.
  - intros Hall. unfold getProductsWithIds, plain. unfold bind at 1.
    destruct (forOf_lookup_found productIds [] (mkCtx w []) Hall) as (docs & -> & Hdocs).
    by exists docs.
  - intros pre y post -> Hpre Hy. unfold getProductsWithIds, plain. unfold bind at 1.
    by rewrite (forOf_lookup_missing pre y post [] (mkCtx w []) Hpre Hy).
Qed.

Lemma getProductsWithIds_all_or_nothing_witness :
  (exists docs,
     getProductsWithIds (Ids [2%N; 1%N; 2%N]) sampleWorld
       = (CustomSuccess (ManyProducts docs) 200, sampleWorld) /\
     Forall2 (fun id p => products (db sampleWorld) !! id = Some p) [2%N; 1%N; 2%N] docs) /\
  getProductsWithIds (Ids [2%N; 7%N; 1%N; 8%N]) sampleWorld
    = (CustomError (ProductDoesntExist 7) 500, sampleWorld).
Proof.
  split.
  - apply (proj1 (getProductsWithIds_all_or_nothing [2%N; 1%N; 2%N] sampleWorld)).
    intros id Hid. apply list_elem_of_In in Hid. simpl in Hid.
    destruct Hid as [<-|[<-|[<-|[]]]]; eexists; reflexivity.
  - apply (proj2 (getProductsWithIds_all_or_nothing [2%N; 7%N; 1%N; 8%N] sampleWorld)
             [2%N] 7%N [1%N; 8%N] eq_refl).
    + intros id Hid. apply list_elem_of_In in Hid. simpl in Hid.
      destruct Hid as [<-|[]]. eexists. reflexivity.
    + reflexivity.
Defined.

(** ** Adding an image *)



(** ** The edits of one scalar field *)



(** ** Mutual edges and fresh identifiers, across every request *)

Lemma forOf_upload_next `{gateway : FileStoreGateway} files : forall c r c',
  forOf files (fun _ file => upload file) tt c = (r, c') ->
  nextObjectId (world c') = nextObjectId (world c).
Proof.
  induction files as [|file files IH]; intros c r c'; simpl.
  - unfold ret. by intros [= <- <-].
  - unfold bind at 1. unfold upload at 1.
    destruct (uploadProductImageFile file (fileStore (world c))) as [reason|fs].
    + by intros [= <- <-].
    + intros Hrest. by apply IH in Hrest.
Qed.

(** A run of [createProduct] that throws has drawn identifiers and
    nothing more. *)
Lemma createProduct_commit_threw_next files productData w e c1 :
  createProduct_commit files productData (mkCtx w []) = (Threw e, c1) ->
  (nextObjectId w <= nextObjectId (world c1))%N.
Proof.
  destruct files as [files|].
  2: { unfold createProduct_commit, bind, newObjectId. simpl. intros [= <- <-]. simpl. lia. }
  destruct (Nat.ltb_spec MAX_IMAGES_PER_PRODUCT (length files)) as [Hmany|Hfew].
  { unfold createProduct_commit, bind, newObjectId. simpl.
    apply Nat.ltb_lt in Hmany. rewrite Hmany. intros [= <- <-]. simpl. lia. }
  destruct (first_failure (found (db w)) (dto_similarProducts productData))
    as [Hall|(pre & y & post & Hsplit & Hpre & Hy)].
  - rewrite createProduct_commit_found by done.
    destruct (validateSync _); [discriminate|]. intros [= <- <-]. simpl.
    unfold advance. lia.
  - unfold createProduct_commit.
    unfold bind at 1. unfold newObjectId at 1. simpl.
    destruct (Nat.ltb_spec MAX_IMAGES_PER_PRODUCT (length files)) as [|_]; [lia|].
    unfold bind at 1. rewrite forOf_attachImageStep_closed. simpl.
    unfold bind at 1. rewrite Hsplit.
    edestruct (forOf_linkStep_stops pre y post) as [pending ->];
      [exact Hpre|exact Hy|].
    intros [= <- <-]. simpl. unfold advance. lia.
Qed.

(** An existing product after the writes of [createProduct]: it lists
    the new product when the request lists it, and is as before when
    not. *)
Lemma createWrites_lookup w files productData k pk :
  keyed (db w) -> allValid (db w) -> k <> nextObjectId w ->
  products (db w) !! k = Some pk ->
  products (foldl applyWrite (db w) (createWrites w files productData)) !! k =
  Some (if decide (k ∈ dto_similarProducts productData)
        then set_similarProducts pk (similarProducts pk ++ [nextObjectId w])
        else pk).
Proof.
  intros Hk Hv Hne Hpk. rewrite createWrites_other by done.
  case_decide; [|done]. unfold addWrite. rewrite Hpk.
  assert (Hvalid : isValid (set_similarProducts pk (push (similarProducts pk)
                                                     (nextObjectId w))) = true).
  { rewrite isValid_fields. simpl. rewrite <- isValid_fields. by apply (Hv k). }
  by rewrite Hvalid.
Qed.

Lemma createWrites_lookup_None w files productData k :
  keyed (db w) -> k <> nextObjectId w ->
  products (db w) !! k = None ->
  products (foldl applyWrite (db w) (createWrites w files productData)) !! k = None.
Proof.
  intros Hk Hne Hpk. rewrite createWrites_other by done.
  case_decide; [|done]. unfold addWrite. by rewrite Hpk.
Qed.

Lemma freshIds_next w : freshIds w -> products (db w) !! nextObjectId w = None.
Proof.
  intros Hf. destruct (products (db w) !! nextObjectId w) eqn:H; [|done].
  apply Hf in H. simpl in H. lia.
Qed.

Lemma createWrites_mutualEdges w files productData :
  wellFormed (db w) -> freshIds w ->
  forallb (found (db w)) (dto_similarProducts productData) = true ->
  mutualEdges (foldl applyWrite (db w) (createWrites w files productData)).
Proof.
  intros (Hk & Hv & Hm) Hf%freshIds_next Hall.
  assert (Hold : forall a b, listsBack (db w) a b ->
            b <> nextObjectId w /\
            listsBack (foldl applyWrite (db w) (createWrites w files productData)) a b).
  { intros a b. unfold listsBack.
    destruct (products (db w) !! b) as [pb|] eqn:Hpb; [|done]. intros Ha.
    assert (Hne : b <> nextObjectId w) by congruence.
    split; [done|]. rewrite (createWrites_lookup _ _ _ _ _ Hk Hv Hne Hpb).
    case_decide; simpl; set_solver. }
  intros k pk' Hk'. apply Forall_forall. intros b Hb.
  destruct (decide (k = nextObjectId w)) as [->|Hne].
  - rewrite createWrites_new in Hk'. injection Hk' as <-. simpl in Hb.
    rewrite forallb_forall in Hall.
    assert (Hfound : found (db w) b = true) by by apply Hall, list_elem_of_In.
    unfold found in Hfound. unfold listsBack.
    destruct (products (db w) !! b) as [pb|] eqn:Hpb; [|done].
    assert (Hneb : b <> nextObjectId w) by congruence.
    rewrite (createWrites_lookup _ _ _ _ _ Hk Hv Hneb Hpb).
    rewrite decide_True by done. simpl. set_solver.
  - destruct (products (db w) !! k) as [pk|] eqn:Hpk.
    2: { by rewrite createWrites_lookup_None in Hk'. }
    rewrite (createWrites_lookup _ _ _ _ _ Hk Hv Hne Hpk) in Hk'. injection Hk' as <-.
    assert (Hback : forall x, x ∈ similarProducts pk ->
              listsBack (foldl applyWrite (db w) (createWrites w files productData)) k x).
    { intros x Hx. apply Hold. specialize (Hm _ _ Hpk). simpl in Hm.
      rewrite Forall_forall in Hm. by apply Hm. }
    case_decide as Hin; [|by apply Hback].
    simpl in Hb. apply elem_of_app in Hb as [Hb|Hb]; [by apply Hback|].
    apply list_elem_of_singleton in Hb as ->. unfold listsBack.
    by rewrite createWrites_new.
Qed.

Lemma createWrites_savesValid w files productData :
  isValid (createdProduct w files productData) = true ->
  Forall savesValid (createWrites w files productData).
Proof.
  intros Hv. unfold createWrites. rewrite !Forall_app. split; [|split].
  - apply Forall_forall. by intros wr (img & -> & _)%list_elem_of_fmap.
  - apply Forall_forall. intros wr (x & _ & Hwr)%list_elem_of_In%in_flat_map.
    unfold addWrite in Hwr. destruct (products (db w) !! x); [|done].
    match type of Hwr with context [if ?b then _ else _] => destruct b eqn:Hb end;
      [|done]. destruct Hwr as [<-|[]]. exact Hb.
  - by repeat constructor.
Qed.

(** One product rewritten with its identifier and its similar products
    kept: every edge that was mutual still is. *)
Lemma retouched_mutualEdges d d' : mutualEdges d -> retouched d d' -> mutualEdges d'.
Proof.
  intros Hm [Heq|(p & p' & Hp & Hid & Hsim & _ & Heq)].
  - unfold mutualEdges, listsBack in *. by rewrite Heq.
  - assert (Hold : forall a b, listsBack d a b -> listsBack d' a b).
    { intros a b. unfold listsBack. rewrite Heq.
      destruct (decide (b = _id p)) as [->|Hne].
      - rewrite Hp, lookup_insert_eq. by rewrite Hsim.
      - by rewrite lookup_insert_ne. }
    intros k pk' Hk'. rewrite Heq in Hk'.
    destruct (decide (k = _id p)) as [->|Hne].
    + rewrite lookup_insert_eq in Hk'. injection Hk' as <-. rewrite Hsim.
      eapply Forall_impl; [exact (Hm _ _ Hp)|]. intros b. apply Hold.
    + rewrite lookup_insert_ne in Hk' by done.
      eapply Forall_impl; [exact (Hm _ _ Hk')|]. intros b. apply Hold.
Qed.

Lemma retouched_freshIds w w' :
  freshIds w -> retouched (db w) (db w') ->
  (nextObjectId w <= nextObjectId w')%N -> freshIds w'.
Proof.
  intros Hf [Heq|(p & p' & Hp & _ & _ & _ & Heq)] Hle k pk Hk; rewrite Heq in Hk; simpl.
  - apply Hf in Hk. simpl in Hk. lia.
  - destruct (decide (k = _id p)) as [->|Hne].
    + apply Hf in Hp. simpl in Hp. lia.
    + rewrite lookup_insert_ne in Hk by done. apply Hf in Hk. simpl in Hk. lia.
Qed.

(** Every request but the creation of a product and the edit of the
    similar products rewrites at most one stored product, and keeps its
    identifier and its similar products. *)
Lemma handle_retouched `{gateway : FileStoreGateway} r w :
  keyed (db w) ->
  match r with
  | CreateProduct _ _ | EditSimilarProductsOfProduct _ _ => True
  | _ => retouched (db w) (db (handle r w).2) /\
         (nextObjectId w <= nextObjectId (handle r w).2)%N
  end.
Proof.
  intros Hk. destruct r; simpl; [done| | | | | | | | | |done].
  2: { unfold getProductsWithIds, plain. destruct body.
       3: { unfold bind.
            destruct (forOf l _ [] (mkCtx w [])) as [[e'|found] c'] eqn:Hloop;
              apply forOf_lookup in Hloop; subst c'; simpl; (split; [by left|lia]). }
       all: unfold bind, throw; simpl; (split; [by left|lia]). }
  all: unfold getProduct, getProductsWithIds, rearrangeImagesOfProduct, editNameOfProduct,
    editQuantityOfProduct, editDescriptionOfProduct, editCategoryOfProduct,
    addNewImageOfProduct, addNewImageOfProduct_commit, deleteImageOfProduct,
    transactional, plain, bind, findById, findImageById, createProductImage, newObjectId,
    deleteOne, saveNow, save, issue, commitTransaction, upload, unlink, ret, throw, push;
    simpl; repeat case_match; simplify_eq; simpl in *.
  all: (split; [|lia]).
  all: first
    [ by left
    | right;
      match goal with
      | H : products _ !! _ = Some ?p |- context [<[_ := ?p']> _] =>
          exists p, p'; repeat split; simpl; try done;
          first [by rewrite (Hk _ _ H) | by apply validateSync_isValid]
      end ].
Qed.



(** ** Adding an image and deleting it again *)

Lemma indexOf_app_new l x : x ∉ l -> indexOf (l ++ [x]) x = Some (length l).
Proof.
  induction l as [|y l IH]; simpl; intros Hx.
  - by rewrite N.eqb_refl.
  - apply not_elem_of_cons in Hx as [Hne Hx].
    destruct (N.eqb_spec y x) as [->|_]; [done|]. by rewrite IH.
Qed.

Lemma splice1_app_last l x : splice1 (l ++ [x]) (length l) = l.
Proof.
  unfold splice1. rewrite firstn_app, firstn_all, Nat.sub_diag. simpl.
  rewrite skipn_all2 by (rewrite length_app; simpl; lia). by rewrite !app_nil_r.
Qed.

Lemma set_images_twice p l l' : set_images (set_images p l) l' = set_images p l'.
Proof. done. Qed.


